(** * label-pix-sync: the gallery data service

    A shallow embedding of [src/services/googleSheets.ts] (the class
    [GoogleSheetsService] together with the module-level array [DEMO_IMAGES])
    and of [convertToCSVUrl] from [src/components/GoogleSheetsSetup.tsx],
    followed by the handlers of the page and the components that call them.

    Conventions of the embedding.
    - A JavaScript string is a [string]; every character stands for one code
      unit in the range 0..255.
    - [localStorage] is a finite map from keys to values.
    - [async] methods are run to completion one at a time: a method is a
      function from the world before the call to an outcome (a returned value
      or a thrown error) and the world after it.  Timers and [console.error]
      have no effect on the world and are left out.
    - [JSON.parse], [JSON.stringify], [fetch] and [Date.now] belong to the
      platform, not to the repository; they are parameters of the model.
      [JSON.parse] is given the type the methods declare for its result, an
      array of [ImageData], and [localStorage] calls themselves do not
      throw. *)

From Stdlib Require Import ZArith Ascii String List Bool Lia DecimalString.
From stdpp Require Import base option list gmap strings.

Local Open Scope string_scope.
Local Open Scope list_scope.

(** ** JavaScript string primitives used by the service *)

Module Js.

(** [s.split(sep)] for a one-character separator: never empty. *)
Fixpoint split (sep : ascii) (s : string) : list string :=
  match s with
  | EmptyString => [EmptyString]
  | String c s' =>
      if Ascii.eqb c sep then EmptyString :: split sep s'
      else match split sep s' with
           | h :: t => String c h :: t
           | [] => [String c EmptyString]
           end
  end.

(** White space and line terminators of ECMAScript below U+0100:
    TAB, LF, VT, FF, CR, SP and NBSP. *)
Definition isWhiteSpace (c : ascii) : bool :=
  let n := nat_of_ascii c in
  (Nat.leb 9 n && Nat.leb n 13) || Nat.eqb n 32 || Nat.eqb n 160.

Fixpoint trimStart (s : string) : string :=
  match s with
  | EmptyString => EmptyString
  | String c s' => if isWhiteSpace c then trimStart s' else s
  end.

Fixpoint trimEnd (s : string) : string :=
  match s with
  | EmptyString => EmptyString
  | String c s' =>
      match trimEnd s' with
      | EmptyString => if isWhiteSpace c then EmptyString else String c EmptyString
      | t => String c t
      end
  end.

(** [s.trim()] *)
Definition trim (s : string) : string := trimEnd (trimStart s).

(** The double quote character, code 34. *)
Definition quote : ascii := "034"%char.

(** [s.replace(re, '')] where [re] matches one double quote at the start
    of the input. *)
Definition stripLeadingQuote (s : string) : string :=
  match s with
  | String c s' => if Ascii.eqb c quote then s' else s
  | EmptyString => EmptyString
  end.

(** [s.replace(re, '')] where [re] matches one double quote at the end of
    the input (the regular expression has no [m] flag). *)
Fixpoint stripTrailingQuote (s : string) : string :=
  match s with
  | EmptyString => EmptyString
  | String c EmptyString => if Ascii.eqb c quote then EmptyString else s
  | String c s' => String c (stripTrailingQuote s')
  end.

(** [s.startsWith(p)] *)
Definition startsWith (p s : string) : bool := String.prefix p s.

(** Truthiness of a string: only the empty string is falsy. *)
Definition truthy (s : string) : bool :=
  match s with EmptyString => false | _ => true end.

(** [a || b] where [a] is a string or [undefined] ([None]). *)
Definition or_else (a : option string) (b : string) : string :=
  match a with
  | Some s => if truthy s then s else b
  | None => b
  end.

(** The rest of [s] after the prefix [p], when [p] is a prefix of [s]. *)
Fixpoint dropPrefix (p s : string) : option string :=
  match p, s with
  | EmptyString, _ => Some s
  | String a p', String b s' => if Ascii.eqb a b then dropPrefix p' s' else None
  | String _ _, EmptyString => None
  end.

(** [arr.findIndex(p)], scanning from index [i]; [-1] when nothing
    satisfies [p]. *)
Fixpoint findIndexFrom {A} (i : Z) (p : A -> bool) (arr : list A) : Z :=
  match arr with
  | [] => (-1)%Z
  | x :: arr' => if p x then i else findIndexFrom (i + 1)%Z p arr'
  end.

Definition findIndex {A} (p : A -> bool) (arr : list A) : Z :=
  findIndexFrom 0%Z p arr.

(** [n.toString()] for a non-negative integer. *)
Definition toString (n : N) : string := NilZero.string_of_uint (N.to_uint n).

End Js.

(** ** Data model *)

(** [interface ImageData] of [ImageGallery.tsx]; [comments] is optional. *)
Record ImageData := mkImage {
  id : string;
  url : string;
  label : string;
  comments : option string
}.

Definition setLabel (newLabel : string) (img : ImageData) : ImageData :=
  {| id := id img; url := url img; label := newLabel; comments := comments img |}.

Definition setComments (newComments : string) (img : ImageData) : ImageData :=
  {| id := id img; url := url img; label := label img;
     comments := Some newComments |}.

(** [interface GoogleSheetsConfig]: both properties are optional. *)
Record GoogleSheetsConfig := mkConfig {
  sheetUrl : option string;
  useMockData : option bool
}.

(** ** [parseCSV] *)

Definition lf : ascii := "010"%char.

(** The callback of [line.split(',').map(...)]. *)
Definition cleanCell (cell : string) : string :=
  Js.trim (Js.stripTrailingQuote (Js.stripLeadingQuote cell)).

(** The [for] loop of [parseCSV]: [i] is the loop counter, [rest] the lines
    from index [i] on, [images] the array built so far. *)
Fixpoint parseLoop (i : N) (rest : list string) (images : list ImageData)
  : list ImageData :=
  match rest with
  | [] => images
  | raw :: rest' =>
      let line := Js.trim raw in
      if negb (Js.truthy line) then parseLoop (N.succ i) rest' images
      else
        let cells := map cleanCell (Js.split ","%char line) in
        let id_ := cells !! 0%nat in
        let url_ := cells !! 1%nat in
        let label_ := cells !! 2%nat in
        match url_ with
        | Some u =>
            if Js.truthy u && Js.startsWith "http" u then
              parseLoop (N.succ i) rest'
                (images ++ [ {| id := Js.or_else id_ (Js.toString i);
                                url := u;
                                label := Js.or_else label_ "Untitled";
                                comments := None |} ])
            else parseLoop (N.succ i) rest' images
        | None => parseLoop (N.succ i) rest' images
        end
  end.

Definition parseCSV (csvText : string) : list ImageData :=
  let lines := Js.split lf csvText in
  parseLoop 1 (skipn 1 lines) [].

(** *** The parsing contract in the words of the specification *)

(** At most one pair of enclosing double quotes is stripped, then the field
    is trimmed. *)
Definition stripField (f : string) : string :=
  Js.trim (Js.stripTrailingQuote (Js.stripLeadingQuote f)).

(** The record made from the cleaned leading fields of data line [n]. *)
Definition recordOfFields (n : N) (fields : list string) : option ImageData :=
  match fields with
  | i :: u :: rest =>
      if bool_decide (u <> EmptyString) && String.prefix "http" u then
        Some {| id := if bool_decide (i = EmptyString) then Js.toString n else i;
                url := u;
                label := match rest with
                         | l :: _ =>
                             if bool_decide (l = EmptyString) then "Untitled" else l
                         | [] => "Untitled"
                         end;
                comments := None |}
      else None
  | _ => None
  end.

Definition recordOfLine (n : N) (line : string) : option ImageData :=
  if bool_decide (Js.trim line = EmptyString) then None
  else recordOfFields n (map stripField (take 3 (Js.split ","%char (Js.trim line)))).

(** Data lines numbered from [n]. *)
Fixpoint numbered (n : N) (lines : list string) : list (N * string) :=
  match lines with
  | [] => []
  | l :: lines' => (n, l) :: numbered (N.succ n) lines'
  end.

Definition parseCSV_spec (csvText : string) : list ImageData :=
  omap (fun nl => recordOfLine (fst nl) (snd nl))
       (numbered 1 (tail (Js.split lf csvText))).

Definition nl : string := String lf EmptyString.

Definition sampleCsv : string :=
  "ID,URL,Label" ++ nl ++ "1,https://x/a.jpg,Foo" ++ nl ++
  ",https://x/b.jpg," ++ nl ++ "2,not-a-url,Bar" ++ nl.

(** ** [convertToCSVUrl] *)

(** The character class of the capture group: letters, digits, [-] and [_]. *)
Definition isSheetIdChar (c : ascii) : bool :=
  let n := nat_of_ascii c in
  (Nat.leb 97 n && Nat.leb n 122) || (Nat.leb 65 n && Nat.leb n 90)
  || (Nat.leb 48 n && Nat.leb n 57) || Nat.eqb n 45 || Nat.eqb n 95.

(** The greedy run matched by the group's [+] at the start of [s]. *)
Fixpoint takeSheetId (s : string) : string :=
  match s with
  | String c s' => if isSheetIdChar c then String c (takeSheetId s') else EmptyString
  | EmptyString => EmptyString
  end.

(** The regular expression tried at the start of [s]: the capture, if any. *)
Definition matchHere (s : string) : option string :=
  match Js.dropPrefix "/spreadsheets/d/" s with
  | Some s' => let g := takeSheetId s' in if Js.truthy g then Some g else None
  | None => None
  end.

(** [url.match(re)] for the regular expression of [convertToCSVUrl] (no
    flags): the capture [match[1]] of the leftmost match, [None] for [null]. *)
Fixpoint sheetIdMatch (s : string) : option string :=
  match matchHere s with
  | Some g => Some g
  | None => match s with
            | EmptyString => None
            | String _ s' => sheetIdMatch s'
            end
  end.

(** ** Outcomes and the world *)

Inductive JsError := Error (message : string).

Inductive Outcome (A : Type) :=
| Return (a : A)
| Throw (e : JsError).
Arguments Return {A} a.
Arguments Throw {A} e.

Definition convertToCSVUrl (url_ : string) : Outcome string :=
  match sheetIdMatch url_ with
  | None => Throw (Error "Invalid Google Sheets URL")
  | Some sheetId =>
      Return ("https://docs.google.com/spreadsheets/d/e/" +:+ sheetId +:+ "/pub?output=csv")
  end.

Definition STORAGE_KEY : string := "image_gallery_data".

(** The array literal bound to [DEMO_IMAGES] when the module is loaded. *)
Definition DEMO_IMAGES : list ImageData :=
  [ mkImage "1" "https://images.unsplash.com/photo-1506905925346-21bda4d32df4?w=800&h=800&fit=crop" "Mountain Landscape" None;
    mkImage "2" "https://images.unsplash.com/photo-1441974231531-c6227db76b6e?w=800&h=800&fit=crop" "Forest Path" None;
    mkImage "3" "https://images.unsplash.com/photo-1506905925346-21bda4d32df4?w=800&h=800&fit=crop&auto=format&q=80" "Ocean Sunset" None;
    mkImage "4" "https://images.unsplash.com/photo-1518837695005-2083093ee35b?w=800&h=800&fit=crop" "Desert Dunes" None;
    mkImage "5" "https://images.unsplash.com/photo-1501594907352-04cda38ebc29?w=800&h=800&fit=crop" "Tropical Beach" None;
    mkImage "6" "https://images.unsplash.com/photo-1447752875215-b2761acb3c5d?w=800&h=800&fit=crop" "Rolling Hills" None ].

(** The mutable state the service reads and writes: the browser's
    [localStorage], the current contents of the one array object bound to
    [DEMO_IMAGES] (a [const] binding, but the array itself can be mutated
    through any alias), and [this.config] of the singleton. *)
Record World := mkWorld {
  localStorage : gmap string string;
  demoArray : list ImageData;
  config : GoogleSheetsConfig
}.

(** A reference to an array of records: either the array object bound to
    [DEMO_IMAGES] or an array nobody else holds. *)
Inductive ImagesRef :=
| DemoRef
| Fresh (contents : list ImageData).

(** A method run to completion. *)
Definition Op (A : Type) : Type := World -> Outcome A * World.

Definition ret {A} (a : A) : Op A := fun w => (Return a, w).

Definition throw {A} (e : JsError) : Op A := fun w => (Throw e, w).

Definition bind {A B} (m : Op A) (k : A -> Op B) : Op B :=
  fun w => match m w with
           | (Return a, w') => k a w'
           | (Throw e, w') => (Throw e, w')
           end.

(** [try { m } catch (error) { h error }] *)
Definition tryCatch {A} (m : Op A) (h : JsError -> Op A) : Op A :=
  fun w => match m w with
           | (Return a, w') => (Return a, w')
           | (Throw e, w') => h e w'
           end.

Declare Scope op_scope.
Delimit Scope op_scope with op.
Bind Scope op_scope with Op.
Notation "x <- m ;; k" := (bind m (fun x => k))
  (at level 20, m at level 99, k at level 200) : op_scope.
Notation "m ;; k" := (bind m (fun _ => k))
  (at level 100, k at level 200, right associativity) : op_scope.
Local Open Scope op_scope.

Definition getItem (key : string) : Op (option string) :=
  fun w => (Return (localStorage w !! key), w).

Definition setItem (key value : string) : Op unit :=
  fun w => (Return tt,
            {| localStorage := <[key := value]> (localStorage w);
               demoArray := demoArray w; config := config w |}).

Definition removeItem (key : string) : Op unit :=
  fun w => (Return tt,
            {| localStorage := delete key (localStorage w);
               demoArray := demoArray w; config := config w |}).

Definition getConfig : Op GoogleSheetsConfig := fun w => (Return (config w), w).

Definition setConfig (c : GoogleSheetsConfig) : Op unit :=
  fun w => (Return tt,
            {| localStorage := localStorage w; demoArray := demoArray w;
               config := c |}).

(** The elements of the array a reference points to. *)
Definition contentsOf (w : World) (r : ImagesRef) : list ImageData :=
  match r with
  | DemoRef => demoArray w
  | Fresh l => l
  end.

Definition readArray (r : ImagesRef) : Op (list ImageData) :=
  fun w => (Return (contentsOf w r), w).

(** In-place mutation of the array behind [r]: every holder of the same
    array sees the new elements. *)
Definition writeArray (r : ImagesRef) (l : list ImageData) : Op ImagesRef :=
  fun w => match r with
           | DemoRef =>
               (Return DemoRef,
                {| localStorage := localStorage w; demoArray := l;
                   config := config w |})
           | Fresh _ => (Return (Fresh l), w)
           end.

(** What [fetch(url)] followed by [response.text()] can do. *)
Inductive FetchResult :=
| FetchRejected (e : JsError)
| FetchResponse (ok : bool) (status : N) (text : Outcome string).

(** ** The service *)

(** [new GoogleSheetsService(config)]: [{ useMockData: true, ...config }]. *)
Definition constructor (c : GoogleSheetsConfig) : GoogleSheetsConfig :=
  {| sheetUrl := sheetUrl c;
     useMockData := match useMockData c with
                    | Some b => Some b
                    | None => Some true
                    end |}.

(** The world once the module is loaded and the singleton
    [new GoogleSheetsService()] is built, for the given storage contents. *)
Definition moduleLoaded (storage : gmap string string) : World :=
  {| localStorage := storage; demoArray := DEMO_IMAGES;
     config := constructor (mkConfig None None) |}.

Section Service.

(** [JSON.parse] on the stored text, typed as the method signatures type
    it ([ImageData[]]); [None] stands for a thrown [SyntaxError]. *)
Variable JSON_parse : string -> option (list ImageData).
Variable JSON_stringify : list ImageData -> string.
(** [fetch] and [response.text()] for each URL. *)
Variable network : string -> FetchResult.

Definition seedDemo : Op ImagesRef :=
  demo <- readArray DemoRef ;;
  setItem STORAGE_KEY (JSON_stringify demo) ;;
  ret DemoRef.

Definition initializeData : Op ImagesRef :=
  stored <- getItem STORAGE_KEY ;;
  match stored with
  | Some text =>
      if Js.truthy text then
        match JSON_parse text with
        | Some images => ret (Fresh images)
        | None => seedDemo
        end
      else seedDemo
  | None => seedDemo
  end.

Definition fetchRemote : Op ImagesRef :=
  c <- getConfig ;;
  match sheetUrl c with
  | Some u =>
      if Js.truthy u then
        match network u with
        | FetchRejected e => throw e
        | FetchResponse ok status text =>
            if negb ok then
              throw (Error ("HTTP error! status: " +:+ Js.toString status))
            else
              match text with
              | Throw e => throw e
              | Return csvText => ret (Fresh (parseCSV csvText))
              end
        end
      else throw (Error "Google Sheets URL not configured")
  | None => throw (Error "Google Sheets URL not configured")
  end.

Definition fetchImages : Op ImagesRef :=
  c <- getConfig ;;
  if default false (useMockData c) then initializeData
  else tryCatch fetchRemote (fun _ => initializeData).

Definition updateImageLabel (id_ newLabel : string) : Op unit :=
  images <- initializeData ;;
  arr <- readArray images ;;
  let imageIndex := Js.findIndex (fun img => String.eqb (id img) id_) arr in
  if (imageIndex =? -1)%Z then throw (Error "Image not found")
  else
    images <- writeArray images
                (alter (setLabel newLabel) (Z.to_nat imageIndex) arr) ;;
    arr <- readArray images ;;
    setItem STORAGE_KEY (JSON_stringify arr).

(** [now] is the value of [Date.now()] during the call. *)
Definition addImage (now : N) (url_ label_ : string) : Op ImageData :=
  images <- initializeData ;;
  let newImage :=
    {| id := Js.toString now; url := url_; label := label_; comments := None |} in
  arr <- readArray images ;;
  images <- writeArray images (arr ++ [newImage]) ;;
  arr <- readArray images ;;
  setItem STORAGE_KEY (JSON_stringify arr) ;;
  ret newImage.

Definition deleteImage (id_ : string) : Op unit :=
  images <- initializeData ;;
  arr <- readArray images ;;
  let filteredImages := filter (fun img => id img <> id_) arr in
  setItem STORAGE_KEY (JSON_stringify filteredImages).

Definition setSheetUrl (url_ : string) : Op unit :=
  setConfig {| sheetUrl := Some url_; useMockData := Some false |}.

Definition resetToDemo : Op unit :=
  c <- getConfig ;;
  setConfig {| sheetUrl := sheetUrl c; useMockData := Some true |} ;;
  removeItem STORAGE_KEY.

(** The [try] block of [handleSubmit]: normalise, then configure. *)
Definition configureRemote (urlText : string) : Op unit :=
  match convertToCSVUrl urlText with
  | Return csvUrl => setSheetUrl csvUrl
  | Throw e => throw e
  end.

(** Modelled from the spec: [updateImageComments], the method that
    [handleUpdateComments] calls, is not in [googleSheets.ts] as given;
    the specification gives it the contract of [updateImageLabel] for the
    comments field, so it is [updateImageLabel] with the assignment made
    to [comments]. *)
Definition updateImageComments (id_ newComments : string) : Op unit :=
  images <- initializeData ;;
  arr <- readArray images ;;
  let imageIndex := Js.findIndex (fun img => String.eqb (id img) id_) arr in
  if (imageIndex =? -1)%Z then throw (Error "Image not found")
  else
    images <- writeArray images
                (alter (setComments newComments) (Z.to_nat imageIndex) arr) ;;
    arr <- readArray images ;;
    setItem STORAGE_KEY (JSON_stringify arr).

End Service.

(** ** A reference codec for the stored text

    The text [JSON.stringify] prints for an array of records, and a reader of
    that canonical text (no white space, properties in the order [id], [url],
    [label], [comments]).  It gives the parameters [JSON_parse] and
    [JSON_stringify] of the service a concrete, executable instance. *)

Module JsonText.

Definition backslash : ascii := "092"%char.

Definition hexDigit (n : nat) : ascii :=
  if Nat.ltb n 10 then ascii_of_nat (48 + n) else ascii_of_nat (87 + n).

Definition hexValue (c : ascii) : option nat :=
  let n := nat_of_ascii c in
  if Nat.leb 48 n && Nat.leb n 57 then Some (n - 48)
  else if Nat.leb 97 n && Nat.leb n 102 then Some (n - 87)
  else if Nat.leb 65 n && Nat.leb n 70 then Some (n - 55)
  else None.

Definition two (a b : ascii) : string := String a (String b EmptyString).

(** How [JSON.stringify] prints one code unit inside a string. *)
Definition escapeChar (c : ascii) : string :=
  let n := nat_of_ascii c in
  if Ascii.eqb c Js.quote then two backslash Js.quote
  else if Ascii.eqb c backslash then two backslash backslash
  else if Nat.eqb n 8 then two backslash "b"
  else if Nat.eqb n 9 then two backslash "t"
  else if Nat.eqb n 10 then two backslash "n"
  else if Nat.eqb n 12 then two backslash "f"
  else if Nat.eqb n 13 then two backslash "r"
  else if Nat.ltb n 32 then
    two backslash "u" +:+ "00" +:+ two (hexDigit (n / 16)) (hexDigit (n mod 16))
  else String c EmptyString.

Fixpoint escape (s : string) : string :=
  match s with
  | EmptyString => EmptyString
  | String c s' => escapeChar c +:+ escape s'
  end.

Definition quoted (s : string) : string :=
  String Js.quote (escape s +:+ String Js.quote EmptyString).

(** A property name with its colon and the opening quote of its value. *)
Definition key (name : string) : string :=
  String Js.quote (name +:+ String Js.quote (String ":" (String Js.quote EmptyString))).

Definition closeQuote (s : string) : string := String Js.quote s.

Definition stringifyImage (img : ImageData) : string :=
  "{" +:+ key "id" +:+ escape (id img) +:+ closeQuote
  ("," +:+ key "url" +:+ escape (url img) +:+ closeQuote
  ("," +:+ key "label" +:+ escape (label img) +:+ closeQuote
  (match comments img with
   | Some c => "," +:+ key "comments" +:+ escape c +:+ closeQuote "}"
   | None => "}"
   end))).

Fixpoint stringifyItems (l : list ImageData) : string :=
  match l with
  | [] => "]"
  | [img] => stringifyImage img +:+ "]"
  | img :: l' => stringifyImage img +:+ "," +:+ stringifyItems l'
  end.

Definition stringify (l : list ImageData) : string :=
  "[" +:+ stringifyItems l.

(** What follows an item: the closing bracket, or a comma and the items
    still to come. *)
Definition tailItems (l : list ImageData) : string :=
  match l with
  | [] => "]"
  | _ :: _ => "," +:+ stringifyItems l
  end.

(** Reads the characters of a string literal up to its closing quote. *)
Fixpoint readString (s : string) : option (string * string) :=
  match s with
  | EmptyString => None
  | String c s' =>
      if Ascii.eqb c Js.quote then Some (EmptyString, s')
      else if Ascii.eqb c backslash then
        match s' with
        | String e s'' =>
            let continue (d : ascii) (rest : option (string * string)) :=
              match rest with
              | Some (t, r) => Some (String d t, r)
              | None => None
              end in
            if Ascii.eqb e Js.quote then continue Js.quote (readString s'')
            else if Ascii.eqb e backslash then continue backslash (readString s'')
            else if Ascii.eqb e "/" then continue "/"%char (readString s'')
            else if Ascii.eqb e "b" then continue "008"%char (readString s'')
            else if Ascii.eqb e "t" then continue "009"%char (readString s'')
            else if Ascii.eqb e "n" then continue "010"%char (readString s'')
            else if Ascii.eqb e "f" then continue "012"%char (readString s'')
            else if Ascii.eqb e "r" then continue "013"%char (readString s'')
            else if Ascii.eqb e "u" then
              match s'' with
              | String h1 (String h2 (String h3 (String h4 s5))) =>
                  match hexValue h1, hexValue h2, hexValue h3, hexValue h4 with
                  | Some 0, Some 0, Some a, Some b =>
                      continue (ascii_of_nat (16 * a + b)) (readString s5)
                  | _, _, _, _ => None
                  end
              | _ => None
              end
            else None
        | EmptyString => None
        end
      else if Nat.ltb (nat_of_ascii c) 32 then None
      else
        match readString s' with
        | Some (t, r) => Some (String c t, r)
        | None => None
        end
  end.

Definition readField (name : string) (s : string) : option (string * string) :=
  s' ← Js.dropPrefix (key name) s; readString s'.

Definition readImage (s : string) : option (ImageData * string) :=
  s ← Js.dropPrefix "{" s;
  '(i, s) ← readField "id" s;
  s ← Js.dropPrefix "," s;
  '(u, s) ← readField "url" s;
  s ← Js.dropPrefix "," s;
  '(l, s) ← readField "label" s;
  match Js.dropPrefix "}" s with
  | Some s => Some (mkImage i u l None, s)
  | None =>
      s ← Js.dropPrefix "," s;
      '(c, s) ← readField "comments" s;
      s ← Js.dropPrefix "}" s;
      Some (mkImage i u l (Some c), s)
  end.

(** The items after the first, each introduced by a comma, up to the
    closing bracket. *)
Fixpoint readMore (fuel : nat) (s : string) : option (list ImageData) :=
  match fuel with
  | O => None
  | S fuel' =>
      match s with
      | String "]" EmptyString => Some []
      | String "," s' =>
          '(img, s'') ← readImage s';
          l ← readMore fuel' s'';
          Some (img :: l)
      | _ => None
      end
  end.

Definition parse (text : string) : option (list ImageData) :=
  s ← Js.dropPrefix "[" text;
  match s with
  | String "]" EmptyString => Some []
  | _ =>
      '(img, s') ← readImage s;
      l ← readMore (String.length s') s';
      Some (img :: l)
  end.

End JsonText.

(** ** Vocabulary for the statements *)

Definition ids (l : list ImageData) : list string := map id l.

Section Views.

Variable JSON_parse : string -> option (list ImageData).
Variable JSON_stringify : list ImageData -> string.
Variable network : string -> FetchResult.

(** The snapshot the service can read back from the cache: the stored
    text must be there, be non-empty and parse. *)
Definition storedSnapshot (w : World) : option (list ImageData) :=
  match localStorage w !! STORAGE_KEY with
  | Some text => if Js.truthy text then JSON_parse text else None
  | None => None
  end.

(** The world after the demo array has been written to the cache. *)
Definition seeded (w : World) : World :=
  {| localStorage :=
       <[STORAGE_KEY := JSON_stringify (demoArray w)]> (localStorage w);
     demoArray := demoArray w;
     config := config w |}.

(** The cache-backed snapshot: the stored one, else the demo array. *)
Definition loadedSnapshot (w : World) : list ImageData :=
  default (demoArray w) (storedSnapshot w).

(** The ways the remote adapter fails. *)
Inductive AdapterFailure (c : GoogleSheetsConfig) : Prop :=
| MissingEndpoint :
    sheetUrl c = None \/ sheetUrl c = Some EmptyString -> AdapterFailure c
| TransportFailure (u : string) (e : JsError) :
    sheetUrl c = Some u -> network u = FetchRejected e -> AdapterFailure c
| HttpFailure (u : string) (status : N) (text : Outcome string) :
    sheetUrl c = Some u -> network u = FetchResponse false status text ->
    AdapterFailure c
| UndecodableBody (u : string) (status : N) (e : JsError) :
    sheetUrl c = Some u -> network u = FetchResponse true status (Throw e) ->
    AdapterFailure c.

End Views.

(** *** Spreadsheet URLs *)

Definition sheetPath : string := "/spreadsheets/d/".

Definition csvUrlFor (sheetId : string) : string :=
  "https://docs.google.com/spreadsheets/d/e/" +:+ sheetId +:+ "/pub?output=csv".

Fixpoint allSheetIdChars (s : string) : bool :=
  match s with
  | EmptyString => true
  | String c s' => isSheetIdChar c && allSheetIdChars s'
  end.

Definition startsWithSheetIdChar (s : string) : bool :=
  match s with
  | String c _ => isSheetIdChar c
  | EmptyString => false
  end.

(** What the regular expression looks for: the path followed by at least
    one character of the class. *)
Definition hasSheetPattern (s : string) : Prop :=
  exists pre c post,
    s = pre +:+ sheetPath +:+ String c post /\ isSheetIdChar c = true.

(** The pattern as the specification writes it, a non-empty sheet id closed
    by a slash. *)
Definition containsEditPattern (s : string) : Prop :=
  exists pre sheetId post,
    sheetId <> EmptyString /\ s = pre +:+ sheetPath +:+ sheetId +:+ "/" +:+ post.

Fixpoint hasSlash (s : string) : bool :=
  match s with
  | EmptyString => false
  | String c s' => Ascii.eqb c "/" || hasSlash s'
  end.

(** A test that every string containing the specification's pattern passes. *)
Fixpoint editPatternb (s : string) : bool :=
  match Js.dropPrefix sheetPath s with
  | Some (String _ rest) => hasSlash rest
  | _ => false
  end
  || match s with
     | String _ s' => editPatternb s'
     | EmptyString => false
     end.

(** The elements of the array a call returned, if it returned one. *)
Definition snapshotOf (r : Outcome ImagesRef * World) : option (list ImageData) :=
  match r with
  | (Return ref, w) => Some (contentsOf w ref)
  | (Throw _, _) => None
  end.

(** A network on which every request is rejected. *)
Definition offline : string -> FetchResult :=
  fun _ => FetchRejected (Error "Failed to fetch").

(** The singleton after [setSheetUrl] with a published-CSV URL. *)
Definition remoteWorld (storage : gmap string string) : World :=
  {| localStorage := storage; demoArray := DEMO_IMAGES;
     config := {| sheetUrl := Some (csvUrlFor "abc"); useMockData := Some false |} |}.

(** ** Vocabulary for further statements *)

Definition cr : ascii := "013"%char.

(** The text with every line feed preceded by a carriage return. *)
Fixpoint withCR (s : string) : string :=
  match s with
  | EmptyString => EmptyString
  | String c s' =>
      if Ascii.eqb c lf then String cr (String lf (withCR s'))
      else String c (withCR s')
  end.

(** A line, or the same line followed by a carriage return. *)
Definition sameLine (a b : string) : Prop :=
  a = b \/ a = b +:+ String cr EmptyString.

Fixpoint allWhiteSpace (s : string) : bool :=
  match s with
  | EmptyString => true
  | String c s' => Js.isWhiteSpace c && allWhiteSpace s'
  end.

(** A network that serves the sample document at the URL of sheet abc and
    rejects every other request. *)
Definition sheetServer : string -> FetchResult :=
  fun u => if String.eqb u (csvUrlFor "abc")
           then FetchResponse true 200 (Return sampleCsv)
           else FetchRejected (Error "Failed to fetch").

(** ** The components that call the service

    A handler is run to completion, like a service method.  What the
    handlers read and write besides the world of the service: the state of
    the [Index] page and of [ImageGallery], and the toasts shown so far. *)

Module Ui.

(** An argument of [toast(...)]; [destructive] stands for
    the destructive variant. *)
Record Toast := mkToast {
  title : string;
  description : string;
  destructive : bool
}.

Record App := mkApp {
  world : World;
  (** [images] and [loading] of [Index] *)
  images : ImagesRef;
  loading : bool;
  (** [refreshing] of [ImageGallery] *)
  refreshing : bool;
  toasts : list Toast
}.

Definition setWorld (w : World) (a : App) : App :=
  {| world := w; images := images a; loading := loading a;
     refreshing := refreshing a; toasts := toasts a |}.

Definition setImages (r : ImagesRef) (a : App) : App :=
  {| world := world a; images := r; loading := loading a;
     refreshing := refreshing a; toasts := toasts a |}.

Definition setLoading (b : bool) (a : App) : App :=
  {| world := world a; images := images a; loading := b;
     refreshing := refreshing a; toasts := toasts a |}.

Definition setRefreshing (b : bool) (a : App) : App :=
  {| world := world a; images := images a; loading := loading a;
     refreshing := b; toasts := toasts a |}.

Definition toast (t : Toast) (a : App) : App :=
  {| world := world a; images := images a; loading := loading a;
     refreshing := refreshing a; toasts := toasts a ++ [t] |}.

(** The records on display. *)
Definition displayed (a : App) : list ImageData := contentsOf (world a) (images a).

End Ui.

Module Index.
Import Ui.
Section Index.

Variable JSON_parse : string -> option (list ImageData).
Variable JSON_stringify : list ImageData -> string.
Variable network : string -> FetchResult.

Definition failedToLoad : Toast :=
  mkToast "Failed to load images"
          "Could not load images from your data source. Using demo data." true.

Definition loadImages (a : App) : Outcome unit * App :=
  let a := setLoading true a in
  match fetchImages JSON_parse JSON_stringify network (world a) with
  | (Return fetchedImages, w) =>
      (Return tt, setLoading false (setImages fetchedImages (setWorld w a)))
  | (Throw _, w) =>
      (Return tt, setLoading false (toast failedToLoad (setWorld w a)))
  end.

(** [{ ...img, label: newLabel }] for the records with that id. *)
Definition relabel (id_ newLabel : string) (img : ImageData) : ImageData :=
  if String.eqb (id img) id_ then setLabel newLabel img else img.

Definition handleUpdateLabel (id_ newLabel : string) (a : App) : Outcome unit * App :=
  match updateImageLabel JSON_parse JSON_stringify id_ newLabel (world a) with
  | (Return _, w) =>
      let a := setWorld w a in
      (Return tt, setImages (Fresh (map (relabel id_ newLabel) (displayed a))) a)
  | (Throw _, w) => (Throw (Error "Failed to update label"), setWorld w a)
  end.

Definition handleRefresh (a : App) : Outcome unit * App := loadImages a.

End Index.
End Index.

Module ImageGallery.
Import Ui.

Definition refreshed : Toast :=
  mkToast "Refreshed successfully"
          "Gallery data has been updated from Google Sheets." false.

Definition refreshFailed : Toast :=
  mkToast "Refresh failed" "Could not update gallery data. Please try again." true.

(** [onRefresh] is the prop the page passes in. *)
Definition handleRefresh (onRefresh : App -> Outcome unit * App) (a : App) : App :=
  let a := setRefreshing true a in
  match onRefresh a with
  | (Return _, a) => setRefreshing false (toast refreshed a)
  | (Throw _, a) => setRefreshing false (toast refreshFailed a)
  end.

End ImageGallery.

Module ImageCard.
Import Ui.

(** [isEditing], [editedLabel] and [isUpdating] of one card. *)
Record State := mkState {
  isEditing : bool;
  editedLabel : string;
  isUpdating : bool
}.

Definition labelUpdated : Toast :=
  mkToast "Label updated" "The image label has been saved successfully." false.

Definition updateFailed : Toast :=
  mkToast "Update failed" "Could not update the label. Please try again." true.

(** [image] and [onLabelUpdate] are the props of the card. *)
Definition handleSave (image : ImageData)
           (onLabelUpdate : string -> string -> App -> Outcome unit * App)
           (c : State) (a : App) : State * App :=
  if String.eqb (Js.trim (editedLabel c)) (label image) then
    ({| isEditing := false; editedLabel := editedLabel c;
        isUpdating := isUpdating c |}, a)
  else
    match onLabelUpdate (id image) (Js.trim (editedLabel c)) a with
    | (Return _, a) =>
        ({| isEditing := false; editedLabel := editedLabel c;
            isUpdating := false |}, toast labelUpdated a)
    | (Throw _, a) =>
        ({| isEditing := isEditing c; editedLabel := label image;
            isUpdating := false |}, toast updateFailed a)
    end.

Definition handleCancel (image : ImageData) (c : State) : State :=
  {| isEditing := false; editedLabel := label image; isUpdating := isUpdating c |}.

End ImageCard.

Module GoogleSheetsSetup.
Import Ui.

(** [sheetUrl] and [isOpen] of the dialog. *)
Record State := mkState {
  sheetUrl : string;
  isOpen : bool
}.

Definition invalidUrl : Toast :=
  mkToast "Invalid URL" "Please enter a valid Google Sheets URL." true.

Definition configurationSaved : Toast :=
  mkToast "Configuration saved"
          "Google Sheets URL has been configured successfully." false.

Definition demoModeEnabled : Toast :=
  mkToast "Demo mode enabled"
          "Using demo images. You can edit labels and they'll be saved locally."
          false.

(** [onConfigured?.()]: the prop may be missing. *)
Definition callOnConfigured (onConfigured : option (App -> App)) (a : App) : App :=
  match onConfigured with
  | Some f => f a
  | None => a
  end.

Definition handleSubmit (onConfigured : option (App -> App))
           (s : State) (a : App) : State * App :=
  if negb (Js.truthy (Js.trim (sheetUrl s))) then (s, toast invalidUrl a)
  else
    match convertToCSVUrl (sheetUrl s) with
    | Return csvUrl =>
        let a := setWorld (snd (setSheetUrl csvUrl (world a))) a in
        let a := toast configurationSaved a in
        ({| sheetUrl := sheetUrl s; isOpen := false |},
         callOnConfigured onConfigured a)
    | Throw _ => (s, toast invalidUrl a)
    end.

Definition handleUseDemo (onConfigured : option (App -> App))
           (s : State) (a : App) : State * App :=
  let a := setWorld (snd (resetToDemo (world a))) a in
  let a := toast demoModeEnabled a in
  ({| sheetUrl := sheetUrl s; isOpen := false |}, callOnConfigured onConfigured a).

End GoogleSheetsSetup.

(** The page right after its first load on an empty cache, in demo mode. *)
Definition firstLoad : Ui.App :=
  snd (Index.loadImages JsonText.parse JsonText.stringify offline
         (Ui.mkApp (moduleLoaded ∅) (Fresh []) true false [])).

(** The page showing the cache after two [addImage] calls in one
    millisecond. *)
Definition twoAddsInOneMs : Ui.App :=
  let w1 := snd (addImage JsonText.parse JsonText.stringify 1700000000000
                   "https://x/a.jpg" "A" (moduleLoaded ∅)) in
  let w2 := snd (addImage JsonText.parse JsonText.stringify 1700000000000
                   "https://x/b.jpg" "B" w1) in
  Ui.mkApp w2 (Fresh (loadedSnapshot JsonText.parse w2)) false false [].

(** * Properties *)

(** ** Strings *)

Lemma append_nil (b : string) : EmptyString +:+ b = b.
Proof. reflexivity. Qed.

Lemma append_cons (c : ascii) (a b : string) :
  String c a +:+ b = String c (a +:+ b).
Proof. reflexivity. Qed.

(** Pushes [+:+] through the constructors of its first argument. *)
Ltac push_append := rewrite ?append_cons, ?append_nil.
Ltac push_append_in H := rewrite ?append_cons, ?append_nil in H.

Lemma truthy_true_iff (s : string) : Js.truthy s = true <-> s <> EmptyString.
Proof. destruct s; simpl; split; congruence. Qed.

Lemma truthy_false_iff (s : string) : Js.truthy s = false <-> s = EmptyString.
Proof. destruct s; simpl; split; congruence. Qed.

Lemma or_else_nonempty (a : option string) (b : string) :
  b <> EmptyString -> Js.or_else a b <> EmptyString.
Proof.
  intros Hb. destruct a as [s|]; simpl; [|exact Hb].
  destruct (Js.truthy s) eqn:E; [|exact Hb].
  now apply truthy_true_iff.
Qed.

Lemma toString_nonempty (n : N) : Js.toString n <> EmptyString.
Proof.
  unfold Js.toString. destruct (N.to_uint n); simpl; discriminate.
Qed.

(** ** [parseCSV] against the contract *)

Lemma decide_nonempty_truthy (s : string) :
  bool_decide (s <> EmptyString) = Js.truthy s.
Proof.
  destruct s; cbn [Js.truthy].
  - apply bool_decide_eq_false_2. intros H. now apply H.
  - apply bool_decide_eq_true_2. discriminate.
Qed.

Lemma decide_empty_or_else (s d : string) :
  (if bool_decide (s = EmptyString) then d else s) = Js.or_else (Some s) d.
Proof.
  destruct s; cbn [Js.or_else Js.truthy].
  - now rewrite bool_decide_eq_true_2.
  - now rewrite bool_decide_eq_false_2.
Qed.

(** One turn of the loop does what [recordOfLine] says. *)
Lemma parseLoop_step (i : N) (raw : string) (rest : list string)
      (images : list ImageData) :
  parseLoop i (raw :: rest) images =
  parseLoop (N.succ i) rest
    (images ++ match recordOfLine i raw with Some r => [r] | None => [] end).
Proof.
  cbn [parseLoop]. unfold recordOfLine.
  destruct (Js.trim raw) as [|c line] eqn:Hline; cbn [Js.truthy negb].
  - rewrite bool_decide_eq_true_2 by reflexivity. now rewrite app_nil_r.
  - rewrite bool_decide_eq_false_2 by discriminate.
    unfold stripField, cleanCell.
    set (f := fun cell => Js.trim (Js.stripTrailingQuote (Js.stripLeadingQuote cell))).
    destruct (Js.split "," (String c line)) as [|a [|b [|d more]]];
      cbn [map take lookup list_lookup recordOfFields];
      try now rewrite app_nil_r.
    + rewrite decide_nonempty_truthy, decide_empty_or_else.
      unfold Js.startsWith.
      destruct (Js.truthy (f b) && String.prefix "http" (f b));
        [reflexivity | now rewrite app_nil_r].
    + rewrite decide_nonempty_truthy, !decide_empty_or_else.
      unfold Js.startsWith.
      destruct (Js.truthy (f b) && String.prefix "http" (f b));
        [reflexivity | now rewrite app_nil_r].
Qed.

Lemma parseLoop_spec (rest : list string) :
  forall (i : N) (images : list ImageData),
    parseLoop i rest images =
    images ++ omap (fun nl => recordOfLine (fst nl) (snd nl)) (numbered i rest).
Proof.
  induction rest as [|raw rest IH]; intros i images.
  - simpl. now rewrite app_nil_r.
  - rewrite parseLoop_step, IH. cbn [numbered omap list_omap fst snd].
    rewrite <- app_assoc. f_equal.
    destruct (recordOfLine i raw); reflexivity.
Qed.

Lemma parseCSV_refines (csvText : string) : parseCSV csvText = parseCSV_spec csvText.
Proof.
  unfold parseCSV, parseCSV_spec. rewrite parseLoop_spec. simpl.
  destruct (Js.split lf csvText); reflexivity.
Qed.

Lemma stripTrailingQuote_app (s : string) :
  Js.stripTrailingQuote (s +:+ String Js.quote EmptyString) = s.
Proof.
  induction s as [|c s IH]; [reflexivity|].
  rewrite append_cons. cbn [Js.stripTrailingQuote]. rewrite IH.
  destruct s; reflexivity.
Qed.

(** A field in double quotes loses exactly that pair, then is trimmed. *)
Lemma cleanCell_quoted (s : string) :
  cleanCell (String Js.quote (s +:+ String Js.quote EmptyString)) = Js.trim s.
Proof.
  unfold cleanCell. cbn [Js.stripLeadingQuote].
  change (Ascii.eqb Js.quote Js.quote) with true. cbv iota.
  now rewrite stripTrailingQuote_app.
Qed.

(** What every accepted record looks like. *)
Lemma recordOfLine_accepted (n : N) (line : string) (r : ImageData) :
  recordOfLine n line = Some r ->
  String.prefix "http" (url r) = true /\ url r <> EmptyString /\
  id r <> EmptyString /\ label r <> EmptyString /\ comments r = None.
Proof.
  unfold recordOfLine. case_bool_decide; [discriminate|].
  destruct (map stripField (take 3 (Js.split "," (Js.trim line))))
    as [|i [|u rest]]; cbn [recordOfFields]; try discriminate.
  destruct (bool_decide (u <> EmptyString) && String.prefix "http" u) eqn:E;
    [|discriminate].
  apply andb_true_iff in E as [Hu Hp]. apply bool_decide_eq_true_1 in Hu.
  intros [= <-]. cbn [url id label comments]. repeat split; try assumption.
  - case_bool_decide; [apply toString_nonempty | assumption].
  - destruct rest as [|l ?]; [discriminate|].
    case_bool_decide; [discriminate | assumption].
Qed.

Lemma parseCSV_records (csvText : string) (r : ImageData) :
  r ∈ parseCSV csvText ->
  exists n line, line ∈ tail (Js.split lf csvText) /\ recordOfLine n line = Some r.
Proof.
  rewrite parseCSV_refines. unfold parseCSV_spec.
  intros [[n line] [Hin Hr]]%list_elem_of_omap. exists n, line. split; [|exact Hr].
  clear Hr. generalize dependent 1%N.
  induction (tail (Js.split lf csvText)) as [|l ls IH]; intros k Hin; simpl in Hin.
  - inversion Hin.
  - apply elem_of_cons in Hin as [[= -> ->]|Hin]; [left|right; eauto].
Qed.

(** [split] cuts at the first separator. *)
Lemma split_app_sep (sep : ascii) (h body : string) :
  (forall c, In c (list_ascii_of_string h) -> c <> sep) ->
  Js.split sep (h +:+ String sep body) = h :: Js.split sep body.
Proof.
  induction h as [|c h IH]; intros Hh; simpl.
  - now rewrite Ascii.eqb_refl.
  - destruct (Ascii.eqb c sep) eqn:E.
    + apply Ascii.eqb_eq in E. exfalso. apply (Hh c); [now left | exact E].
    + rewrite IH; [reflexivity|]. intros d Hd. apply Hh. now right.
Qed.

(** The first line never reaches the result. *)
Lemma parseCSV_header_discarded (h1 h2 body : string) :
  (forall c, In c (list_ascii_of_string h1) -> c <> lf) ->
  (forall c, In c (list_ascii_of_string h2) -> c <> lf) ->
  parseCSV (h1 +:+ String lf body) = parseCSV (h2 +:+ String lf body).
Proof.
  intros H1 H2. unfold parseCSV. now rewrite !split_app_sep.
Qed.

(** C3. [parseCSV] follows the parsing contract: the first line is
    discarded, every further line is numbered from 1, blank lines give no
    record, a line is cut at its commas and the first three fields are
    cleaned (one leading and one trailing double quote removed, then
    trimmed), a record is produced only when the url is non-empty and starts
    with http, an empty id becomes the line number and an empty label becomes
    Untitled ([parseCSV_spec] says exactly this); hence accepted records have
    an http url, a non-empty id and a non-empty label; a field written in
    double quotes is cleaned to its trimmed content; and the sample document
    of the specification gives exactly its two records. *)
Theorem parseCSV_contract :
  (forall csvText, parseCSV csvText = parseCSV_spec csvText) /\
  (forall s, cleanCell (String Js.quote (s +:+ String Js.quote EmptyString))
             = Js.trim s) /\
  (forall csvText,
      Forall (fun r => String.prefix "http" (url r) = true /\
                       url r <> EmptyString /\ id r <> EmptyString /\
                       label r <> EmptyString)
             (parseCSV csvText)) /\
  parseCSV sampleCsv =
    [ mkImage "1" "https://x/a.jpg" "Foo" None;
      mkImage "2" "https://x/b.jpg" "Untitled" None ].
Proof.
  split; [exact parseCSV_refines | split; [exact cleanCell_quoted | split]].
  - intros csvText. apply Forall_forall. intros r Hr.
    destruct (parseCSV_records _ _ Hr) as (n & line & _ & Hrec).
    apply recordOfLine_accepted in Hrec. tauto.
  - vm_compute. reflexivity.
Qed.

(** C8 (as the code has it). [parseCSV] reads the first three fields of a
    row only: no parsed record carries a comments value, whatever further
    columns the row has. *)
Theorem parseCSV_leaves_comments_unset (csvText : string) :
  Forall (fun r => comments r = None) (parseCSV csvText).
Proof.
  apply Forall_forall. intros r Hr.
  destruct (parseCSV_records _ _ Hr) as (n & line & _ & Hrec).
  apply recordOfLine_accepted in Hrec. tauto.
Qed.

(** C8 as stated fails: a row with a fourth column is parsed into a record
    whose comments are unset, not the fourth field. *)
Lemma parseCSV_fourth_column_dropped :
  let csvText := "ID,URL,Label,Comments" +:+ nl +:+ "1,https://x/a.jpg,Foo,Nice" in
  parseCSV csvText = [ mkImage "1" "https://x/a.jpg" "Foo" None ] /\
  ~ (exists r, parseCSV csvText = [r] /\ comments r = Some "Nice").
Proof.
  split; [vm_compute; reflexivity|].
  intros [r [Hr Hc]]. vm_compute in Hr. injection Hr as <-. discriminate Hc.
Qed.

(** ** [findIndex] *)

Lemma findIndexFrom_find {A} (p : A -> bool) (arr : list A) :
  forall i : Z,
    Js.findIndexFrom i p arr =
    match list_find (fun x => Is_true (p x)) arr with
    | Some (k, _) => (i + Z.of_nat k)%Z
    | None => (-1)%Z
    end.
Proof.
  induction arr as [|x arr IH]; intros i; cbn [Js.findIndexFrom list_find].
  - reflexivity.
  - destruct (p x) eqn:Hp.
    + rewrite decide_True by exact I. simpl. lia.
    + rewrite decide_False by (intros H; exact H). rewrite IH.
      destruct (list_find _ arr) as [[k y]|]; simpl; lia.
Qed.

Lemma findIndex_absent (id_ : string) (arr : list ImageData) :
  id_ ∉ ids arr ->
  Js.findIndex (fun img => String.eqb (id img) id_) arr = (-1)%Z.
Proof.
  intros Hno. unfold Js.findIndex. rewrite findIndexFrom_find.
  destruct (list_find _ arr) as [[k img]|] eqn:Hf; [|reflexivity].
  apply list_find_Some in Hf as (Hk & Hp & _). exfalso. apply Hno.
  apply Is_true_true, String.eqb_eq in Hp. subst id_.
  unfold ids. apply list_elem_of_In, in_map, list_elem_of_In.
  eapply list_elem_of_lookup_2. exact Hk.
Qed.

Lemma findIndex_present (id_ : string) (arr : list ImageData) :
  id_ ∈ ids arr ->
  exists (k : nat) (img : ImageData),
    Js.findIndex (fun img => String.eqb (id img) id_) arr = Z.of_nat k /\
    arr !! k = Some img /\ id img = id_ /\
    (forall j img', arr !! j = Some img' -> (j < k)%nat -> id img' <> id_).
Proof.
  intros Hin. unfold Js.findIndex. rewrite findIndexFrom_find.
  destruct (list_find _ arr) as [[k img]|] eqn:Hf.
  - apply list_find_Some in Hf as (Hk & Hp & Hfirst).
    exists k, img. repeat split; try assumption.
    + now apply Is_true_true, String.eqb_eq in Hp.
    + intros j img' Hj Hlt Heq. apply (Hfirst j img' Hj Hlt).
      now apply Is_true_true, String.eqb_eq.
  - exfalso. apply list_find_None in Hf.
    apply list_elem_of_In, in_map_iff in Hin as (img & Hid & Himg).
    apply list_elem_of_In in Himg. rewrite Forall_forall in Hf.
    apply (Hf img Himg). now apply Is_true_true, String.eqb_eq.
Qed.

(** ** The service *)

Section ServiceProperties.

Variable JSON_parse : string -> option (list ImageData).
Variable JSON_stringify : list ImageData -> string.
Variable network : string -> FetchResult.

Local Abbreviation initializeData' := (initializeData JSON_parse JSON_stringify).
Local Abbreviation storedSnapshot' := (storedSnapshot JSON_parse).
Local Abbreviation loadedSnapshot' := (loadedSnapshot JSON_parse).
Local Abbreviation seeded' := (seeded JSON_stringify).

(** [initializeData] returns the stored snapshot without touching the
    world, or writes the demo array to the cache and returns that array. *)
Lemma initializeData_cases (w : World) :
  initializeData' w =
  match storedSnapshot' w with
  | Some images => (Return (Fresh images), w)
  | None => (Return DemoRef, seeded' w)
  end.
Proof.
  unfold initializeData, storedSnapshot, bind, getItem. cbn.
  destruct (localStorage w !! STORAGE_KEY) as [text|]; [|reflexivity].
  destruct (Js.truthy text); [|reflexivity].
  destruct (JSON_parse text); reflexivity.
Qed.

Lemma initializeData_contents (w : World) :
  exists r w', initializeData' w = (Return r, w') /\
               contentsOf w' r = loadedSnapshot' w.
Proof.
  rewrite initializeData_cases. unfold loadedSnapshot.
  destruct (storedSnapshot' w); eexists _, _; split; reflexivity.
Qed.

Lemma fetchRemote_failure (w : World) :
  AdapterFailure network (config w) ->
  exists e, fetchRemote network w = (Throw e, w).
Proof.
  unfold fetchRemote, bind, getConfig. cbn.
  intros [[H|H]|u e Hu Hn|u status text Hu Hn|u status e Hu Hn]; rewrite H || rewrite Hu.
  - eexists; reflexivity.
  - eexists; reflexivity.
  - destruct (Js.truthy u); [rewrite Hn|]; eexists; reflexivity.
  - destruct (Js.truthy u); [rewrite Hn|]; eexists; reflexivity.
  - destruct (Js.truthy u); [rewrite Hn|]; eexists; reflexivity.
Qed.

Lemma fetchRemote_world (w : World) :
  snd (fetchRemote network w) = w.
Proof.
  unfold fetchRemote, bind, getConfig. cbn.
  destruct (sheetUrl (config w)) as [u|]; [|reflexivity].
  destruct (Js.truthy u); [|reflexivity].
  destruct (network u) as [e|ok status [text|e]]; [reflexivity| |];
    destruct ok; reflexivity.
Qed.

(** C1. [fetchImages] always returns an array and never throws.  With
    [useMockData] set it is [initializeData]; otherwise, whenever the
    remote adapter fails (no endpoint, rejected request, non-success
    status, unreadable body), it is [initializeData] as well, which
    returns the stored snapshot when the cache has one and the demo array
    otherwise. *)
Theorem fetchImages_never_throws (w : World) :
  (exists r w', fetchImages JSON_parse JSON_stringify network w = (Return r, w')) /\
  (default false (useMockData (config w)) = true ->
   fetchImages JSON_parse JSON_stringify network w = initializeData' w) /\
  (default false (useMockData (config w)) = false ->
   AdapterFailure network (config w) ->
   fetchImages JSON_parse JSON_stringify network w = initializeData' w) /\
  (exists r w', initializeData' w = (Return r, w') /\
     contentsOf w' r = default (demoArray w) (storedSnapshot' w)).
Proof.
  assert (Hinit : exists r w', initializeData' w = (Return r, w')).
  { destruct (initializeData_contents w) as (r & w' & H & _). eauto. }
  repeat split.
  - unfold fetchImages, bind, getConfig. cbn.
    destruct (default false (useMockData (config w))); [exact Hinit|].
    unfold tryCatch.
    pose proof (fetchRemote_world w) as Hw.
    destruct (fetchRemote network w) as [[r|e] w1]; cbn in Hw; subst w1.
    + eauto.
    + exact Hinit.
  - intros Hmock. unfold fetchImages, bind, getConfig. cbn. now rewrite Hmock.
  - intros Hmock Hfail. unfold fetchImages, bind, getConfig. cbn. rewrite Hmock.
    unfold tryCatch. destruct (fetchRemote_failure w Hfail) as [e ->].
    reflexivity.
  - apply initializeData_contents.
Qed.

(** Running an update whose target is missing / is found at index [k]. *)
Ltac update_missing H :=
  unfold updateImageLabel, updateImageComments, bind;
  rewrite initializeData_cases; unfold loadedSnapshot in H;
  destruct (storedSnapshot JSON_parse _); cbn -[Js.findIndex] in H |- *;
  rewrite (findIndex_absent _ _ H); reflexivity.

Ltac update_found H :=
  unfold updateImageLabel, updateImageComments, bind;
  rewrite initializeData_cases; unfold loadedSnapshot in H;
  destruct (storedSnapshot JSON_parse _); cbn -[Js.findIndex] in H |- *;
  rewrite H;
  match goal with
  | |- context [(Z.of_nat ?n =? -1)%Z] =>
      destruct (Z.eqb_spec (Z.of_nat n) (-1)) as [Hneg|_]; [lia|]
  end;
  cbn; rewrite Nat2Z.id.

Lemma updateImageLabel_missing (w : World) (id_ newLabel : string) :
  id_ ∉ ids (loadedSnapshot' w) ->
  updateImageLabel JSON_parse JSON_stringify id_ newLabel w =
  (Throw (Error "Image not found"),
   match storedSnapshot' w with Some _ => w | None => seeded' w end).
Proof. intros H. update_missing H. Qed.

Lemma updateImageLabel_found (w : World) (id_ newLabel : string) (k : nat) :
  Js.findIndex (fun img => String.eqb (id img) id_) (loadedSnapshot' w) = Z.of_nat k ->
  let snapshot := alter (setLabel newLabel) k (loadedSnapshot' w) in
  let r := updateImageLabel JSON_parse JSON_stringify id_ newLabel w in
  fst r = Return tt /\
  localStorage (snd r) = <[STORAGE_KEY := JSON_stringify snapshot]> (localStorage w) /\
  config (snd r) = config w /\
  demoArray (snd r) =
    match storedSnapshot' w with Some _ => demoArray w | None => snapshot end.
Proof.
  intros H. unfold loadedSnapshot. update_found H.
  - repeat split.
  - repeat split. apply insert_insert_eq.
Qed.

Lemma updateImageComments_missing (w : World) (id_ newComments : string) :
  id_ ∉ ids (loadedSnapshot' w) ->
  updateImageComments JSON_parse JSON_stringify id_ newComments w =
  (Throw (Error "Image not found"),
   match storedSnapshot' w with Some _ => w | None => seeded' w end).
Proof. intros H. update_missing H. Qed.

Lemma updateImageComments_found (w : World) (id_ newComments : string) (k : nat) :
  Js.findIndex (fun img => String.eqb (id img) id_) (loadedSnapshot' w) = Z.of_nat k ->
  let snapshot := alter (setComments newComments) k (loadedSnapshot' w) in
  let r := updateImageComments JSON_parse JSON_stringify id_ newComments w in
  fst r = Return tt /\
  localStorage (snd r) = <[STORAGE_KEY := JSON_stringify snapshot]> (localStorage w) /\
  config (snd r) = config w /\
  demoArray (snd r) =
    match storedSnapshot' w with Some _ => demoArray w | None => snapshot end.
Proof.
  intros H. unfold loadedSnapshot. update_found H.
  - repeat split.
  - repeat split. apply insert_insert_eq.
Qed.

Lemma addImage_run (w : World) (now : N) (url_ label_ : string) :
  let newImage := mkImage (Js.toString now) url_ label_ None in
  let snapshot := loadedSnapshot' w ++ [newImage] in
  let r := addImage JSON_parse JSON_stringify now url_ label_ w in
  fst r = Return newImage /\
  localStorage (snd r) = <[STORAGE_KEY := JSON_stringify snapshot]> (localStorage w) /\
  config (snd r) = config w /\
  demoArray (snd r) =
    match storedSnapshot' w with Some _ => demoArray w | None => snapshot end.
Proof.
  unfold addImage, bind, loadedSnapshot. rewrite initializeData_cases.
  destruct (storedSnapshot' w); cbn.
  - repeat split.
  - repeat split. apply insert_insert_eq.
Qed.

Lemma deleteImage_run (w : World) (id_ : string) :
  let snapshot := filter (fun img => id img <> id_) (loadedSnapshot' w) in
  let r := deleteImage JSON_parse JSON_stringify id_ w in
  fst r = Return tt /\
  localStorage (snd r) = <[STORAGE_KEY := JSON_stringify snapshot]> (localStorage w) /\
  config (snd r) = config w /\ demoArray (snd r) = demoArray w.
Proof.
  unfold deleteImage, bind, loadedSnapshot. rewrite initializeData_cases.
  destruct (storedSnapshot' w); cbn.
  - repeat split.
  - repeat split. apply insert_insert_eq.
Qed.

Lemma filter_other_ids (id_ : string) (arr : list ImageData) :
  id_ ∉ ids arr -> filter (fun img => id img <> id_) arr = arr.
Proof.
  induction arr as [|img arr IH]; intros Hno; [reflexivity|].
  unfold ids in Hno. cbn [map] in Hno. apply not_elem_of_cons in Hno as [Hne Hno].
  rewrite filter_cons_True by congruence. f_equal. now apply IH.
Qed.

Lemma ids_alter_setLabel (newLabel : string) (k : nat) (arr : list ImageData) :
  ids (alter (setLabel newLabel) k arr) = ids arr.
Proof.
  revert k. induction arr as [|img arr IH]; intros [|k]; cbn; try reflexivity.
  f_equal. apply IH.
Qed.

Lemma resetToDemo_run (w : World) :
  resetToDemo w =
  (Return tt,
   {| localStorage := delete STORAGE_KEY (localStorage w);
      demoArray := demoArray w;
      config := {| sheetUrl := sheetUrl (config w); useMockData := Some true |} |}).
Proof. reflexivity. Qed.

(** After [resetToDemo], [fetchImages] hands out the array bound to
    [DEMO_IMAGES], with whatever elements that array has by then, and writes
    it to the cache. *)
Lemma resetToDemo_fetchImages (w : World) :
  let w1 := snd (resetToDemo w) in
  fetchImages JSON_parse JSON_stringify network w1 = (Return DemoRef, seeded' w1) /\
  contentsOf (seeded' w1) DemoRef = demoArray w.
Proof.
  rewrite resetToDemo_run. cbn [snd]. split; [|reflexivity].
  unfold fetchImages, bind, getConfig. cbn [config useMockData default].
  rewrite initializeData_cases. unfold storedSnapshot. cbn [localStorage].
  now rewrite lookup_delete_eq.
Qed.

(** While the array bound to [DEMO_IMAGES] still has the elements of its
    literal, that is the six demo records. *)
Lemma resetToDemo_fetchImages_pristine (w : World) :
  demoArray w = DEMO_IMAGES ->
  exists w2,
    fetchImages JSON_parse JSON_stringify network (snd (resetToDemo w))
      = (Return DemoRef, w2) /\
    contentsOf w2 DemoRef = DEMO_IMAGES.
Proof.
  intros Hd. destruct (resetToDemo_fetchImages w) as [Hf Hc].
  eexists. split; [exact Hf|]. now rewrite Hc.
Qed.

(** [addImage] keeps ids distinct as long as the clock reading, printed in
    decimal, is not already an id of the snapshot. *)
Lemma addImage_fresh_id_distinct (w : World) (now : N) (url_ label_ : string) :
  NoDup (ids (loadedSnapshot' w)) ->
  Js.toString now ∉ ids (loadedSnapshot' w) ->
  NoDup (ids (loadedSnapshot' w ++ [mkImage (Js.toString now) url_ label_ None])).
Proof.
  intros Hnd Hfresh. unfold ids. rewrite map_app. cbn [map id].
  apply NoDup_app. repeat split; [exact Hnd| |apply NoDup_singleton].
  intros x Hx Hx'. apply list_elem_of_singleton in Hx'. subst x. now apply Hfresh.
Qed.

(** C2 (as the code has it). For an id that is not in the cache-backed
    snapshot, [updateImageLabel] throws the not-found error.  The world is
    left as it was when the cache held a readable snapshot; when the cache
    was absent, empty or unreadable, the failed call has already written the
    demo array to it. *)
Theorem updateImageLabel_missing_id (w : World) (id_ newLabel : string) :
  id_ ∉ ids (loadedSnapshot' w) ->
  fst (updateImageLabel JSON_parse JSON_stringify id_ newLabel w)
    = Throw (Error "Image not found") /\
  (forall images, storedSnapshot' w = Some images ->
     snd (updateImageLabel JSON_parse JSON_stringify id_ newLabel w) = w) /\
  (storedSnapshot' w = None ->
     snd (updateImageLabel JSON_parse JSON_stringify id_ newLabel w) = seeded' w).
Proof.
  intros H. rewrite (updateImageLabel_missing w id_ newLabel H). cbn [fst snd].
  split; [reflexivity|]. split.
  - intros images ->. reflexivity.
  - intros ->. reflexivity.
Qed.

(** Two calls in a row, when the text printed for the demo array is not
    empty and parses back to it. *)
Lemma initializeData_twice (w : World) :
  JSON_parse (JSON_stringify (demoArray w)) = Some (demoArray w) ->
  Js.truthy (JSON_stringify (demoArray w)) = true ->
  exists r1 r2 w1,
    initializeData' w = (Return r1, w1) /\
    initializeData' w1 = (Return r2, w1) /\
    contentsOf w1 r1 = contentsOf w1 r2 /\
    localStorage w1 !! STORAGE_KEY <> None.
Proof.
  intros Hparse Htruthy. rewrite initializeData_cases.
  destruct (storedSnapshot' w) as [images|] eqn:Hs.
  - exists (Fresh images), (Fresh images), w. rewrite initializeData_cases, Hs.
    repeat split. unfold storedSnapshot in Hs.
    destruct (localStorage w !! STORAGE_KEY); congruence.
  - exists DemoRef, (Fresh (demoArray w)), (seeded' w).
    rewrite initializeData_cases. unfold storedSnapshot, seeded.
    cbn [localStorage demoArray contentsOf]. rewrite lookup_insert_eq.
    rewrite Htruthy, Hparse. repeat split. discriminate.
Qed.

(** C6. [initializeData] is idempotent, given that [JSON.parse] reads back
    what [JSON.stringify] printed for the demo array and that this text is
    not empty: a second call right after the first returns a snapshot with
    the same elements and leaves the world, the cache included, as the first
    call left it (so nothing is seeded again), and the cache has an entry. *)
Theorem initializeData_idempotent (w : World) :
  JSON_parse (JSON_stringify (demoArray w)) = Some (demoArray w) ->
  Js.truthy (JSON_stringify (demoArray w)) = true ->
  exists r1 r2 w1,
    initializeData' w = (Return r1, w1) /\
    initializeData' w1 = (Return r2, w1) /\
    contentsOf w1 r1 = contentsOf w1 r2 /\
    localStorage w1 !! STORAGE_KEY <> None.
Proof. exact (initializeData_twice w). Qed.

(** C7. [updateImageComments] has the contract of [updateImageLabel] for the
    comments field: for an id of the cache-backed snapshot it sets the
    comments of the first record with that id and writes the whole snapshot
    to the cache; for any other id it throws the not-found error. *)
Theorem updateImageComments_contract (w : World) (id_ newComments : string) :
  (id_ ∈ ids (loadedSnapshot' w) ->
   exists k img,
     loadedSnapshot' w !! k = Some img /\ id img = id_ /\
     fst (updateImageComments JSON_parse JSON_stringify id_ newComments w)
       = Return tt /\
     localStorage (snd (updateImageComments JSON_parse JSON_stringify id_ newComments w))
       !! STORAGE_KEY
       = Some (JSON_stringify (<[k := setComments newComments img]> (loadedSnapshot' w)))) /\
  (id_ ∉ ids (loadedSnapshot' w) ->
   fst (updateImageComments JSON_parse JSON_stringify id_ newComments w)
     = Throw (Error "Image not found")).
Proof.
  split.
  - intros Hin. destruct (findIndex_present _ _ Hin) as (k & img & Hk & Hl & Hid & _).
    exists k, img. destruct (updateImageComments_found w id_ newComments k Hk)
      as (Hr & Hs & _).
    repeat split; try assumption.
    rewrite Hs, lookup_insert_eq. do 2 f_equal.
    apply list_eq. intros j. rewrite list_lookup_alter.
    destruct (decide (k = j)) as [<-|Hne].
    + rewrite Hl, list_lookup_insert_eq by (eapply lookup_lt_Some; exact Hl).
      reflexivity.
    + rewrite list_lookup_insert_ne by exact Hne. reflexivity.
  - intros Hno. now rewrite (updateImageComments_missing w id_ newComments Hno).
Qed.

(** C10. When the cache is absent, empty or unreadable, each mutation first
    seeds it through [initializeData], so afterwards the cache holds the demo
    array as the operation left it: unchanged after an update that fails or
    a deletion of an id that is not there, relabelled, extended by the new
    record, or filtered.  The demo array of a freshly loaded module has its
    six records. *)
Theorem mutations_seed_unusable_cache (w : World) :
  storedSnapshot' w = None ->
  (forall id_ newLabel,
      let r := updateImageLabel JSON_parse JSON_stringify id_ newLabel w in
      exists snapshot,
        localStorage (snd r) !! STORAGE_KEY = Some (JSON_stringify snapshot) /\
        ids snapshot = ids (demoArray w) /\
        (id_ ∉ ids (demoArray w) ->
         snapshot = demoArray w /\ fst r = Throw (Error "Image not found"))) /\
  (forall now url_ label_,
      localStorage (snd (addImage JSON_parse JSON_stringify now url_ label_ w))
        !! STORAGE_KEY
      = Some (JSON_stringify
                (demoArray w ++ [mkImage (Js.toString now) url_ label_ None]))) /\
  (forall id_,
      localStorage (snd (deleteImage JSON_parse JSON_stringify id_ w)) !! STORAGE_KEY
      = Some (JSON_stringify (filter (fun img => id img <> id_) (demoArray w))) /\
      (id_ ∉ ids (demoArray w) ->
       filter (fun img => id img <> id_) (demoArray w) = demoArray w)) /\
  (forall storage, demoArray (moduleLoaded storage) = DEMO_IMAGES) /\
  length DEMO_IMAGES = 6%nat.
Proof.
  intros Hs.
  assert (Hl : loadedSnapshot' w = demoArray w) by (unfold loadedSnapshot; now rewrite Hs).
  split; [|split; [|split; [|split]]].
  - intros id_ newLabel r.
    destruct (decide (id_ ∈ ids (demoArray w))) as [Hin|Hno].
    + pose proof Hin as Hin'. rewrite <- Hl in Hin'.
      destruct (findIndex_present _ _ Hin') as (k & img & Hk & _).
      destruct (updateImageLabel_found w id_ newLabel k Hk) as (_ & Hst & _).
      exists (alter (setLabel newLabel) k (demoArray w)). subst r.
      rewrite Hst, Hl, lookup_insert_eq.
      split; [reflexivity|]. split; [apply ids_alter_setLabel|].
      intros Hno. contradiction.
    + exists (demoArray w). subst r.
      pose proof Hno as Hno'. rewrite <- Hl in Hno'.
      rewrite (updateImageLabel_missing w id_ newLabel Hno'), Hs.
      cbn. rewrite lookup_insert_eq. repeat split.
  - intros now url_ label_.
    destruct (addImage_run w now url_ label_) as (_ & Hst & _).
    now rewrite Hst, Hl, lookup_insert_eq.
  - intros id_. split; [|apply filter_other_ids].
    destruct (deleteImage_run w id_) as (_ & Hst & _).
    now rewrite Hst, Hl, lookup_insert_eq.
  - reflexivity.
  - reflexivity.
Qed.

End ServiceProperties.

(** ** [convertToCSVUrl] *)

Lemma dropPrefix_app (p r : string) : Js.dropPrefix p (p +:+ r) = Some r.
Proof.
  induction p as [|a p IH]; push_append; simpl; [now destruct r|].
  now rewrite Ascii.eqb_refl.
Qed.

Lemma dropPrefix_Some (p s r : string) :
  Js.dropPrefix p s = Some r -> s = p +:+ r.
Proof.
  revert s. induction p as [|a p IH]; intros s; simpl.
  - destruct s; intros [= <-]; reflexivity.
  - destruct s as [|b s]; [discriminate|].
    destruct (Ascii.eqb_spec a b) as [->|]; [|discriminate].
    intros H. push_append. f_equal. now apply IH.
Qed.

Lemma takeSheetId_spec (s : string) :
  exists post,
    s = takeSheetId s +:+ post /\ allSheetIdChars (takeSheetId s) = true /\
    startsWithSheetIdChar post = false.
Proof.
  induction s as [|c s (post & Hs & Hall & Hpost)]; simpl.
  - exists EmptyString. auto.
  - destruct (isSheetIdChar c) eqn:Hc.
    + exists post. push_append. simpl. rewrite Hc, Hall, <- Hs. auto.
    + exists (String c s). auto.
Qed.

Lemma matchHere_Some (s g : string) :
  matchHere s = Some g ->
  exists post,
    s = sheetPath +:+ g +:+ post /\ g <> EmptyString /\
    allSheetIdChars g = true /\ startsWithSheetIdChar post = false.
Proof.
  unfold matchHere. destruct (Js.dropPrefix _ s) as [rest|] eqn:Hd; [|discriminate].
  apply dropPrefix_Some in Hd.
  destruct (Js.truthy (takeSheetId rest)) eqn:Ht; [|discriminate].
  intros [= <-]. destruct (takeSheetId_spec rest) as (post & Hr & Hall & Hpost).
  exists post. rewrite <- Hr. repeat split; try assumption.
  now apply truthy_true_iff.
Qed.

Lemma matchHere_None (s : string) :
  matchHere s = None ->
  forall c post, s = sheetPath +:+ String c post -> isSheetIdChar c = false.
Proof.
  unfold matchHere. intros H c post ->. rewrite dropPrefix_app in H.
  cbn [takeSheetId] in H. destruct (isSheetIdChar c); [discriminate | reflexivity].
Qed.

(** [sheetIdMatch] finds the leftmost occurrence of the path that is
    followed by a character of the class, and captures the longest run. *)
Lemma sheetIdMatch_spec (s : string) :
  match sheetIdMatch s with
  | Some g =>
      exists pre post,
        s = pre +:+ sheetPath +:+ g +:+ post /\ g <> EmptyString /\
        allSheetIdChars g = true /\ startsWithSheetIdChar post = false /\
        (forall pre' c post',
            s = pre' +:+ sheetPath +:+ String c post' -> isSheetIdChar c = true ->
            (String.length pre <= String.length pre')%nat)
  | None => ~ hasSheetPattern s
  end.
Proof.
  induction s as [|a s IH]; cbn [sheetIdMatch].
  - cbn. intros (pre & c & post & H & _). destruct pre; discriminate.
  - destruct (matchHere (String a s)) as [g|] eqn:Hm.
    + destruct (matchHere_Some _ _ Hm) as (post & Hs & Hg & Hall & Hpost).
      exists EmptyString, post. push_append. cbn [String.length].
      repeat split; try assumption. intros; lia.
    + pose proof (matchHere_None _ Hm) as Hnone.
      destruct (sheetIdMatch s) as [g|].
      * destruct IH as (pre & post & Hs & Hg & Hall & Hpost & Hleft).
        exists (String a pre), post. push_append. cbn [String.length].
        rewrite <- Hs. repeat split; try assumption.
        intros [|b pre'] c post' Heq Hc.
        -- rewrite append_nil in Heq. rewrite (Hnone c post' Heq) in Hc. discriminate.
        -- rewrite append_cons in Heq. cbn [String.length]. injection Heq as _ Heq.
           specialize (Hleft pre' c post' Heq Hc). lia.
      * intros ([|b pre] & c & post & Heq & Hc).
        -- rewrite append_nil in Heq. rewrite (Hnone c post Heq) in Hc. discriminate.
        -- rewrite append_cons in Heq. injection Heq as _ Heq.
           apply IH. exists pre, c, post. auto.
Qed.

(** C4 (as the code has it). [convertToCSVUrl] succeeds exactly on the
    strings in which the path is followed by at least one letter, digit,
    hyphen or underscore; no closing slash is asked for.  The sheet id is the
    longest run of such characters after the leftmost such occurrence, and
    the result is the published-CSV URL for that id.  On every other string,
    and only there, it throws the invalid-URL error.  Being a function of its
    argument, it gives the same result whenever it gets the same string. *)
Theorem convertToCSVUrl_contract (url_ : string) :
  (hasSheetPattern url_ ->
   exists pre sheetId post,
     url_ = pre +:+ sheetPath +:+ sheetId +:+ post /\
     sheetId <> EmptyString /\ allSheetIdChars sheetId = true /\
     startsWithSheetIdChar post = false /\
     (forall pre' c post',
         url_ = pre' +:+ sheetPath +:+ String c post' -> isSheetIdChar c = true ->
         (String.length pre <= String.length pre')%nat) /\
     convertToCSVUrl url_ = Return (csvUrlFor sheetId)) /\
  (~ hasSheetPattern url_ <->
   convertToCSVUrl url_ = Throw (Error "Invalid Google Sheets URL")).
Proof.
  pose proof (sheetIdMatch_spec url_) as H. unfold convertToCSVUrl.
  destruct (sheetIdMatch url_) as [g|].
  - destruct H as (pre & post & Hs & Hg & Hall & Hpost & Hleft). split.
    + intros _. exists pre, g, post. repeat split; assumption.
    + split; [|discriminate]. intros Hno. exfalso. apply Hno.
      destruct g as [|c g]; [congruence|]. exists pre, c, (g +:+ post).
      rewrite append_cons in Hs. split; [exact Hs|]. cbn in Hall. now apply andb_true_iff in Hall as [? _].
  - split; [intros Hyes; contradiction|]. split; auto.
Qed.

(** Configuring goes to remote mode with the normalised URL, or throws and
    leaves the configuration alone. *)
Lemma configureRemote_run (urlText : string) (w : World) :
  configureRemote urlText w =
  match sheetIdMatch urlText with
  | Some sheetId =>
      (Return tt,
       {| localStorage := localStorage w; demoArray := demoArray w;
          config := mkConfig (Some (csvUrlFor sheetId)) (Some false) |})
  | None => (Throw (Error "Invalid Google Sheets URL"), w)
  end.
Proof.
  unfold configureRemote, convertToCSVUrl.
  destruct (sheetIdMatch urlText); reflexivity.
Qed.

Lemma hasSlash_app (a b : string) : hasSlash (a +:+ String "/" b) = true.
Proof.
  induction a as [|c a IH]; push_append; simpl; [reflexivity|].
  rewrite IH. apply orb_true_r.
Qed.

Lemma editPatternb_complete (s : string) :
  containsEditPattern s -> editPatternb s = true.
Proof.
  intros (pre & sheetId & post & Hne & ->).
  change ("/" +:+ post) with (String "/" post).
  induction pre as [|a pre IH].
  - destruct sheetId as [|c sheetId]; [congruence|].
    rewrite append_nil.
    assert (Hd : Js.dropPrefix sheetPath
                   (sheetPath +:+ String c sheetId +:+ String "/" post)
                 = Some (String c (sheetId +:+ String "/" post)))
      by (rewrite dropPrefix_app; now rewrite append_cons).
    destruct (sheetPath +:+ String c sheetId +:+ String "/" post) eqn:E;
      cbn [editPatternb]; rewrite Hd, hasSlash_app; reflexivity.
  - rewrite append_cons. cbn [editPatternb]. rewrite IH. apply orb_true_r.
Qed.

(** C4 as stated fails: a URL that ends right after the sheet id does not
    contain the pattern with its closing slash, and yet it is accepted. *)
Lemma convertToCSVUrl_without_closing_slash :
  let url_ := "https://docs.google.com/spreadsheets/d/abc" in
  ~ containsEditPattern url_ /\
  convertToCSVUrl url_ = Return (csvUrlFor "abc").
Proof.
  split; [|vm_compute; reflexivity].
  intros H. apply editPatternb_complete in H. vm_compute in H. discriminate H.
Qed.

(** ** The reference codec reads back what it prints *)

Lemma append_assoc (a b c : string) : (a +:+ b) +:+ c = a +:+ b +:+ c.
Proof. induction a as [|x a IH]; push_append; [reflexivity | now rewrite IH]. Qed.

Lemma readString_escapeChar (c : ascii) (text t r : string) :
  JsonText.readString text = Some (t, r) ->
  JsonText.readString (JsonText.escapeChar c +:+ text) = Some (String c t, r).
Proof.
  intros H.
  destruct c as [[] [] [] [] [] [] [] []];
    match goal with
    | |- context [JsonText.escapeChar ?c] =>
        let e := eval vm_compute in (JsonText.escapeChar c) in
        change (JsonText.escapeChar c) with e
    end;
    push_append; cbn; rewrite H; reflexivity.
Qed.

Lemma readString_escape (s rest : string) :
  JsonText.readString (JsonText.escape s +:+ String Js.quote rest) = Some (s, rest).
Proof.
  induction s as [|c s IH].
  - reflexivity.
  - cbn [JsonText.escape]. rewrite append_assoc. now apply readString_escapeChar.
Qed.

Lemma readField_key (name s rest : string) :
  JsonText.readField name (JsonText.key name +:+ JsonText.escape s +:+ JsonText.closeQuote rest) = Some (s, rest).
Proof.
  unfold JsonText.readField. rewrite dropPrefix_app. cbn [mbind option_bind].
  apply readString_escape.
Qed.

Lemma closeQuote_append (a b : string) :
  JsonText.closeQuote a +:+ b = JsonText.closeQuote (a +:+ b).
Proof. reflexivity. Qed.

Lemma readImage_stringifyImage (img : ImageData) (rest : string) :
  JsonText.readImage (JsonText.stringifyImage img +:+ rest) = Some (img, rest).
Proof.
  destruct img as [i u l c]. unfold JsonText.stringifyImage, JsonText.readImage. cbn [id url label comments].
  rewrite !append_assoc, !closeQuote_append, !append_assoc, !closeQuote_append,
    !append_assoc, !closeQuote_append.
  rewrite dropPrefix_app. cbn [mbind option_bind].
  rewrite readField_key. cbn [mbind option_bind].
  rewrite dropPrefix_app. cbn [mbind option_bind].
  rewrite readField_key. cbn [mbind option_bind].
  rewrite dropPrefix_app. cbn [mbind option_bind].
  rewrite readField_key. cbn [mbind option_bind].
  destruct c as [c|].
  - rewrite !append_assoc, !closeQuote_append.
    change (Js.dropPrefix "}" ("," +:+ ?x)) with (@None string).
    cbv iota. rewrite dropPrefix_app. cbn [mbind option_bind].
    rewrite readField_key. cbn [mbind option_bind].
    rewrite dropPrefix_app. reflexivity.
  - rewrite dropPrefix_app. reflexivity.
Qed.

Lemma stringifyItems_cons (img : ImageData) (l : list ImageData) :
  JsonText.stringifyItems (img :: l) = JsonText.stringifyImage img +:+ JsonText.tailItems l.
Proof. destruct l; reflexivity. Qed.

Lemma length_append (a b : string) :
  String.length (a +:+ b) = (String.length a + String.length b)%nat.
Proof. induction a as [|c a IH]; push_append; cbn [String.length]; [reflexivity | now rewrite IH]. Qed.

Lemma tailItems_length (l : list ImageData) :
  (length l < String.length (JsonText.tailItems l))%nat.
Proof.
  induction l as [|img l IH]; [cbn; lia|].
  unfold JsonText.tailItems at 1. rewrite stringifyItems_cons, append_cons, append_nil.
  cbn [String.length length]. rewrite length_append. lia.
Qed.

Lemma readMore_tailItems (l : list ImageData) :
  forall fuel, (length l < fuel)%nat -> JsonText.readMore fuel (JsonText.tailItems l) = Some l.
Proof.
  induction l as [|img l IH]; intros [|fuel] Hfuel; try (cbn in Hfuel; lia).
  - reflexivity.
  - unfold JsonText.tailItems at 1. rewrite stringifyItems_cons, append_cons, append_nil.
    cbn [JsonText.readMore]. cbv iota beta.
    rewrite readImage_stringifyImage. cbn [mbind option_bind].
    rewrite IH by (cbn in Hfuel; lia). reflexivity.
Qed.

(** The fuel [parse] gives [readMore] is always enough. *)
Lemma parse_stringify (l : list ImageData) :
  JsonText.parse (JsonText.stringify l) = Some l.
Proof.
  unfold JsonText.parse, JsonText.stringify. rewrite dropPrefix_app. cbn [mbind option_bind].
  destruct l as [|img l]; [reflexivity|].
  rewrite stringifyItems_cons.
  assert (Hhead : exists t, JsonText.stringifyImage img +:+ JsonText.tailItems l = String "{" t)
    by (eexists; reflexivity).
  destruct Hhead as [t Ht].
  pose proof (readImage_stringifyImage img (JsonText.tailItems l)) as Hr.
  rewrite Ht in *. cbv iota beta. rewrite Hr. cbn [mbind option_bind].
  rewrite readMore_tailItems by apply tailItems_length. reflexivity.
Qed.

Lemma stringify_truthy (l : list ImageData) : Js.truthy (JsonText.stringify l) = true.
Proof. reflexivity. Qed.

(** With the reference codec, [initializeData] is idempotent in every
    world. *)
Lemma initializeData_twice_reference (w : World) :
  exists r1 r2 w1,
    initializeData JsonText.parse JsonText.stringify w = (Return r1, w1) /\
    initializeData JsonText.parse JsonText.stringify w1 = (Return r2, w1) /\
    contentsOf w1 r1 = contentsOf w1 r2.
Proof.
  destruct (initializeData_twice JsonText.parse JsonText.stringify w
              (parse_stringify _) (stringify_truthy _))
    as (r1 & r2 & w1 & H1 & H2 & H3 & _).
  exists r1, r2, w1. auto.
Qed.

(** ** The service on concrete worlds, with the reference codec *)

Ltac by_computation := apply (bool_decide_unpack _); vm_compute; exact I.

(** C2 as stated fails: on an empty cache, an update of an id that is not in
    the snapshot throws, and by then the cache slot has gone from absent to
    holding the demo set. *)
Lemma updateImageLabel_missing_id_seeds_empty_cache :
  let w := moduleLoaded ∅ in
  let r := updateImageLabel JsonText.parse JsonText.stringify "nope" "Renamed" w in
  ("nope" ∉ ids (loadedSnapshot JsonText.parse w)) /\
  fst r = Throw (Error "Image not found") /\
  localStorage w !! STORAGE_KEY = None /\
  localStorage (snd r) !! STORAGE_KEY = Some (JsonText.stringify DEMO_IMAGES) /\
  localStorage (snd r) !! STORAGE_KEY <> localStorage w !! STORAGE_KEY.
Proof.
  cbv zeta. split; [by_computation|]. split; [vm_compute; reflexivity|].
  split; [vm_compute; reflexivity|]. split; [vm_compute; reflexivity|].
  vm_compute. discriminate.
Qed.

(** C5 on a reachable world: an edit made while the cache is empty goes to
    the array bound to [DEMO_IMAGES] itself, so [resetToDemo] followed by
    [fetchImages] returns the demo records with the edited label, not the
    records of the literal. *)
Lemma resetToDemo_fetchImages_returns_edited_demo :
  let w0 := moduleLoaded ∅ in
  let w1 := snd (updateImageLabel JsonText.parse JsonText.stringify "1" "Edited" w0) in
  let w2 := snd (resetToDemo w1) in
  let r := fetchImages JsonText.parse JsonText.stringify offline w2 in
  snapshotOf r = Some (<[0%nat := mkImage "1" "https://images.unsplash.com/photo-1506905925346-21bda4d32df4?w=800&h=800&fit=crop" "Edited" None]> DEMO_IMAGES) /\
  snapshotOf r <> Some DEMO_IMAGES /\
  localStorage (snd r) !! STORAGE_KEY <> Some (JsonText.stringify DEMO_IMAGES).
Proof.
  cbv zeta. split; [vm_compute; reflexivity|].
  split; vm_compute; intros H; discriminate H.
Qed.

(** C9 on a reachable world: two [addImage] calls during the same
    millisecond give the second record the id of the first. *)
Lemma addImage_same_millisecond_repeats_id :
  let now := 1700000000000%N in
  let w0 := moduleLoaded ∅ in
  let w1 := snd (addImage JsonText.parse JsonText.stringify now "https://x/a.jpg" "A" w0) in
  let r := addImage JsonText.parse JsonText.stringify now "https://x/b.jpg" "B" w1 in
  NoDup (ids (loadedSnapshot JsonText.parse w1)) /\
  fst r = Return (mkImage "1700000000000" "https://x/b.jpg" "B" None) /\
  ("1700000000000" ∈ ids (loadedSnapshot JsonText.parse w1)) /\
  ids (loadedSnapshot JsonText.parse (snd r)) =
    ["1"; "2"; "3"; "4"; "5"; "6"; "1700000000000"; "1700000000000"] /\
  ~ NoDup (ids (loadedSnapshot JsonText.parse (snd r))).
Proof.
  cbv zeta. split; [by_computation|]. split; [vm_compute; reflexivity|].
  split; [by_computation|]. split; [vm_compute; reflexivity|]. by_computation.
Qed.

(** ** The theorems at concrete inputs *)

(** Offline in remote mode, and in demo mode. *)
Lemma fetchImages_never_throws_witness :
  fetchImages JsonText.parse JsonText.stringify offline (remoteWorld ∅)
    = initializeData JsonText.parse JsonText.stringify (remoteWorld ∅) /\
  fetchImages JsonText.parse JsonText.stringify offline (moduleLoaded ∅)
    = initializeData JsonText.parse JsonText.stringify (moduleLoaded ∅).
Proof.
  split.
  - destruct (fetchImages_never_throws JsonText.parse JsonText.stringify
                offline (remoteWorld ∅)) as (_ & _ & Hremote & _).
    apply Hremote; [reflexivity|].
    eapply TransportFailure; reflexivity.
  - destruct (fetchImages_never_throws JsonText.parse JsonText.stringify
                offline (moduleLoaded ∅)) as (_ & Hdemo & _).
    apply Hdemo. reflexivity.
Defined.

(** A missing id against a cache that holds the demo set. *)
Lemma updateImageLabel_missing_id_witness :
  let w := seeded JsonText.stringify (moduleLoaded ∅) in
  ("nope" ∉ ids (loadedSnapshot JsonText.parse w)) /\
  fst (updateImageLabel JsonText.parse JsonText.stringify "nope" "Renamed" w)
    = Throw (Error "Image not found") /\
  snd (updateImageLabel JsonText.parse JsonText.stringify "nope" "Renamed" w) = w.
Proof.
  cbv zeta.
  assert (H : "nope" ∉ ids (loadedSnapshot JsonText.parse
                              (seeded JsonText.stringify (moduleLoaded ∅))))
    by by_computation.
  split; [exact H|].
  destruct (updateImageLabel_missing_id JsonText.parse JsonText.stringify
              (seeded JsonText.stringify (moduleLoaded ∅)) "nope" "Renamed" H)
    as (Hthrow & Hsame & _).
  split; [exact Hthrow|]. apply (Hsame DEMO_IMAGES). vm_compute. reflexivity.
Defined.

(** The sample edit URL of the setup dialog, and a string without the path. *)
Lemma convertToCSVUrl_contract_witness :
  let url_ := "https://docs.google.com/spreadsheets/d/1BxiMVs0XRA5nFMdKvBdBZjgmUUqptlbs74OgvE2upms/edit#gid=0" in
  hasSheetPattern url_ /\
  (exists pre sheetId post,
     url_ = pre +:+ sheetPath +:+ sheetId +:+ post /\
     sheetId <> EmptyString /\ allSheetIdChars sheetId = true /\
     startsWithSheetIdChar post = false /\
     (forall pre' c post',
         url_ = pre' +:+ sheetPath +:+ String c post' -> isSheetIdChar c = true ->
         (String.length pre <= String.length pre')%nat) /\
     convertToCSVUrl url_ = Return (csvUrlFor sheetId)) /\
  ~ hasSheetPattern "not a spreadsheet".
Proof.
  cbv zeta.
  assert (H : hasSheetPattern "https://docs.google.com/spreadsheets/d/1BxiMVs0XRA5nFMdKvBdBZjgmUUqptlbs74OgvE2upms/edit#gid=0").
  { exists "https://docs.google.com", "1"%char,
      "BxiMVs0XRA5nFMdKvBdBZjgmUUqptlbs74OgvE2upms/edit#gid=0".
    split; reflexivity. }
  split; [exact H|]. split.
  - apply (proj1 (convertToCSVUrl_contract _) H).
  - apply (proj2 (convertToCSVUrl_contract "not a spreadsheet")).
    vm_compute. reflexivity.
Defined.

(** First load on an empty cache. *)
Lemma initializeData_idempotent_witness :
  exists r1 r2 w1,
    initializeData JsonText.parse JsonText.stringify (moduleLoaded ∅) = (Return r1, w1) /\
    initializeData JsonText.parse JsonText.stringify w1 = (Return r2, w1) /\
    contentsOf w1 r1 = contentsOf w1 r2 /\
    localStorage w1 !! STORAGE_KEY <> None.
Proof.
  apply (initializeData_idempotent JsonText.parse JsonText.stringify (moduleLoaded ∅)).
  - vm_compute. reflexivity.
  - vm_compute. reflexivity.
Defined.

(** A comment on record 2, and on an id that is not there. *)
Lemma updateImageComments_contract_witness :
  let w := seeded JsonText.stringify (moduleLoaded ∅) in
  (exists k img,
     loadedSnapshot JsonText.parse w !! k = Some img /\ id img = "2" /\
     fst (updateImageComments JsonText.parse JsonText.stringify "2" "A path" w)
       = Return tt /\
     localStorage (snd (updateImageComments JsonText.parse JsonText.stringify "2" "A path" w))
       !! STORAGE_KEY
       = Some (JsonText.stringify
                 (<[k := setComments "A path" img]> (loadedSnapshot JsonText.parse w)))) /\
  fst (updateImageComments JsonText.parse JsonText.stringify "nope" "A path" w)
    = Throw (Error "Image not found").
Proof.
  cbv zeta. split.
  - apply (proj1 (updateImageComments_contract JsonText.parse JsonText.stringify
                    (seeded JsonText.stringify (moduleLoaded ∅)) "2" "A path")).
    by_computation.
  - apply (proj2 (updateImageComments_contract JsonText.parse JsonText.stringify
                    (seeded JsonText.stringify (moduleLoaded ∅)) "nope" "A path")).
    by_computation.
Defined.

(** Deleting an absent id on an empty cache leaves the demo set stored. *)
Lemma mutations_seed_unusable_cache_witness :
  localStorage
    (snd (deleteImage JsonText.parse JsonText.stringify "nope" (moduleLoaded ∅)))
    !! STORAGE_KEY
  = Some (JsonText.stringify DEMO_IMAGES).
Proof.
  destruct (mutations_seed_unusable_cache JsonText.parse JsonText.stringify
              (moduleLoaded ∅)) as (_ & _ & Hdelete & _).
  - vm_compute. reflexivity.
  - destruct (Hdelete "nope") as [Hstore Hsame].
    rewrite Hstore, Hsame; [reflexivity | by_computation].
Defined.

(** * Further properties of the code *)

(** ** More on [trim] *)

Lemma trimEnd_app_ws (x : string) (c : ascii) :
  Js.isWhiteSpace c = true -> Js.trimEnd (x +:+ String c EmptyString) = Js.trimEnd x.
Proof.
  intros Hc. induction x as [|a x IH]; push_append.
  - cbn. now rewrite Hc.
  - cbn [Js.trimEnd]. now rewrite IH.
Qed.

Lemma trimStart_app (b t : string) :
  Js.trimStart (b +:+ t) =
  match Js.trimStart b with
  | EmptyString => Js.trimStart t
  | String _ _ => Js.trimStart b +:+ t
  end.
Proof.
  induction b as [|a b IH]; push_append; [reflexivity|].
  cbn [Js.trimStart]. destruct (Js.isWhiteSpace a); [exact IH | reflexivity].
Qed.

Lemma trim_app_ws (b : string) (c : ascii) :
  Js.isWhiteSpace c = true -> Js.trim (b +:+ String c EmptyString) = Js.trim b.
Proof.
  intros Hc. unfold Js.trim. rewrite trimStart_app.
  destruct (Js.trimStart b) as [|a b'] eqn:E.
  - cbn. now rewrite Hc.
  - now rewrite trimEnd_app_ws.
Qed.

Lemma trimEnd_idem (s : string) : Js.trimEnd (Js.trimEnd s) = Js.trimEnd s.
Proof.
  induction s as [|c s IH]; [reflexivity|]. cbn [Js.trimEnd].
  destruct (Js.trimEnd s) as [|a t] eqn:E.
  - destruct (Js.isWhiteSpace c) eqn:Hc; cbn; [reflexivity | now rewrite Hc].
  - cbn [Js.trimEnd]. cbn [Js.trimEnd] in IH. now rewrite IH.
Qed.

Lemma trimStart_head (s : string) :
  match Js.trimStart s with
  | EmptyString => True
  | String c _ => Js.isWhiteSpace c = false
  end.
Proof.
  induction s as [|c s IH]; cbn; [exact I|].
  destruct (Js.isWhiteSpace c) eqn:Hc; [exact IH | exact Hc].
Qed.

Lemma trimStart_trim (s : string) : Js.trimStart (Js.trim s) = Js.trim s.
Proof.
  unfold Js.trim. pose proof (trimStart_head s) as H.
  destruct (Js.trimStart s) as [|c t]; [reflexivity|].
  cbn [Js.trimEnd]. destruct (Js.trimEnd t); rewrite ?H; cbn; now rewrite H.
Qed.

Lemma trim_idem (s : string) : Js.trim (Js.trim s) = Js.trim s.
Proof.
  unfold Js.trim at 1. rewrite trimStart_trim. unfold Js.trim. apply trimEnd_idem.
Qed.

(** ** [parseCSV] on other line endings, sizes and fields *)

Lemma split_withCR (s : string) :
  Forall2 sameLine (Js.split lf (withCR s)) (Js.split lf s).
Proof.
  induction s as [|c s IH]; cbn [withCR Js.split].
  - constructor; [now left | constructor].
  - destruct (Ascii.eqb c lf) eqn:Hc.
    + cbn [Js.split]. change (Ascii.eqb cr lf) with false. cbv iota.
      change (Ascii.eqb lf lf) with true. cbv iota.
      constructor; [now right | exact IH].
    + cbn [Js.split]. rewrite Hc.
      destruct IH as [|a b t t' Hab Ht].
      * constructor; [now left | constructor].
      * constructor; [|exact Ht].
        destruct Hab as [->| ->]; [now left | right; reflexivity].
Qed.

Lemma sameLine_trim (a b : string) : sameLine a b -> Js.trim a = Js.trim b.
Proof. intros [->| ->]; [reflexivity | now apply trim_app_ws]. Qed.

Lemma recordOfLine_trim (n : N) (a b : string) :
  Js.trim a = Js.trim b -> recordOfLine n a = recordOfLine n b.
Proof. intros H. unfold recordOfLine. now rewrite H. Qed.

Lemma parseLoop_sameLine (l l' : list string) :
  Forall2 sameLine l l' ->
  forall i images, parseLoop i l images = parseLoop i l' images.
Proof.
  induction 1 as [|a b t t' Hab Ht IH]; intros i images; [reflexivity|].
  rewrite !parseLoop_step, (recordOfLine_trim i a b (sameLine_trim _ _ Hab)).
  apply IH.
Qed.

(** X11. Line endings CR LF parse like LF: inserting a carriage return before
    every line feed leaves the result of [parseCSV] unchanged. *)
Theorem parseCSV_crlf (csvText : string) :
  parseCSV (withCR csvText) = parseCSV csvText.
Proof.
  unfold parseCSV. apply parseLoop_sameLine.
  destruct (split_withCR csvText); cbn; [constructor | assumption].
Qed.

Lemma numbered_length (l : list string) : forall n, length (numbered n l) = length l.
Proof. induction l as [|x l IH]; intros n; cbn; [reflexivity | now rewrite IH]. Qed.

Lemma omap_length_le {A B} (f : A -> option B) (l : list A) :
  (length (omap f l) <= length l)%nat.
Proof.
  induction l as [|x l IH]; cbn; [lia|]. destruct (f x); cbn; lia.
Qed.

(** X12. [parseCSV] gives at most one record per line after the first; a text
    without line feed gives none. *)
Theorem parseCSV_length (csvText : string) :
  (length (parseCSV csvText) <= length (Js.split lf csvText) - 1)%nat.
Proof.
  rewrite parseCSV_refines. unfold parseCSV_spec.
  etransitivity; [apply omap_length_le|]. rewrite numbered_length.
  destruct (Js.split lf csvText); cbn; lia.
Qed.

Lemma recordOfLine_trimmed (n : N) (line : string) (r : ImageData) :
  recordOfLine n line = Some r ->
  Js.trim (url r) = url r /\ Js.trim (label r) = label r.
Proof.
  unfold recordOfLine. case_bool_decide; [discriminate|].
  destruct (take 3 (Js.split "," (Js.trim line))) as [|i [|u rest]];
    cbn [map recordOfFields]; try discriminate.
  destruct (bool_decide (stripField u <> EmptyString) && _); [|discriminate].
  intros [= <-]. cbn [url label]. split.
  - apply trim_idem.
  - destruct rest as [|l rest]; cbn [map]; [reflexivity|].
    case_bool_decide; [reflexivity | apply trim_idem].
Qed.

(** X13. The url and the label of every parsed record are free of surrounding
    white space. *)
Theorem parseCSV_fields_trimmed (csvText : string) :
  Forall (fun r => Js.trim (url r) = url r /\ Js.trim (label r) = label r)
         (parseCSV csvText).
Proof.
  apply Forall_forall. intros r Hr.
  destruct (parseCSV_records _ _ Hr) as (n & line & _ & Hrec).
  now apply recordOfLine_trimmed in Hrec.
Qed.

(** ** More on the service *)

Lemma alter_as_insert {A} (f : A -> A) (k : nat) (l : list A) (x : A) :
  l !! k = Some x -> alter f k l = <[k := f x]> l.
Proof.
  intros Hl. apply list_eq. intros j. rewrite list_lookup_alter.
  destruct (decide (k = j)) as [<-|Hne].
  - rewrite Hl, list_lookup_insert_eq by (eapply lookup_lt_Some; exact Hl).
    reflexivity.
  - rewrite list_lookup_insert_ne by exact Hne. reflexivity.
Qed.

Section ServiceMore.

Variable JSON_parse : string -> option (list ImageData).
Variable JSON_stringify : list ImageData -> string.
Variable network : string -> FetchResult.

Local Abbreviation initializeData' := (initializeData JSON_parse JSON_stringify).
Local Abbreviation storedSnapshot' := (storedSnapshot JSON_parse).
Local Abbreviation loadedSnapshot' := (loadedSnapshot JSON_parse).
Local Abbreviation seeded' := (seeded JSON_stringify).
Local Abbreviation updateImageLabel' := (updateImageLabel JSON_parse JSON_stringify).
Local Abbreviation addImage' := (addImage JSON_parse JSON_stringify).
Local Abbreviation deleteImage' := (deleteImage JSON_parse JSON_stringify).
Local Abbreviation fetchImages' := (fetchImages JSON_parse JSON_stringify network).

(** X1. For an id of the cache-backed snapshot, [updateImageLabel] returns,
    relabels the first record with that id and nothing else, and writes the
    whole snapshot to the cache. *)
Theorem updateImageLabel_existing_id (w : World) (id_ newLabel : string) :
  id_ ∈ ids (loadedSnapshot' w) ->
  exists k img,
    loadedSnapshot' w !! k = Some img /\ id img = id_ /\
    (forall j img', loadedSnapshot' w !! j = Some img' -> (j < k)%nat ->
                    id img' <> id_) /\
    fst (updateImageLabel' id_ newLabel w) = Return tt /\
    localStorage (snd (updateImageLabel' id_ newLabel w)) !! STORAGE_KEY
      = Some (JSON_stringify (<[k := setLabel newLabel img]> (loadedSnapshot' w))).
Proof.
  intros Hin. destruct (findIndex_present _ _ Hin) as (k & img & Hk & Hl & Hid & Hfirst).
  exists k, img.
  destruct (updateImageLabel_found JSON_parse JSON_stringify w id_ newLabel k Hk)
    as (Hr & Hs & _).
  repeat split; try assumption.
  rewrite Hs, lookup_insert_eq. now rewrite (alter_as_insert _ _ _ _ Hl).
Qed.

Lemma fetchImages_world (w : World) :
  snd (fetchImages' w) = w \/ snd (fetchImages' w) = snd (initializeData' w).
Proof.
  unfold fetchImages, bind, getConfig. cbn.
  destruct (default false (useMockData (config w))); [now right|].
  unfold tryCatch. pose proof (fetchRemote_world network w) as Hw.
  destruct (fetchRemote network w) as [[r|e] w1]; cbn in Hw; subst w1;
    [now left | now right].
Qed.

Lemma initializeData_world (w : World) :
  snd (initializeData' w) = w \/ snd (initializeData' w) = seeded' w.
Proof.
  rewrite initializeData_cases. destruct (storedSnapshot' w); [now left | now right].
Qed.

Lemma updateImageLabel_storage (w : World) (id_ newLabel : string) :
  localStorage (snd (updateImageLabel' id_ newLabel w)) = localStorage w \/
  exists text,
    localStorage (snd (updateImageLabel' id_ newLabel w))
    = <[STORAGE_KEY := text]> (localStorage w).
Proof.
  destruct (decide (id_ ∈ ids (loadedSnapshot' w))) as [Hin|Hno].
  - destruct (findIndex_present _ _ Hin) as (k & img & Hk & _).
    destruct (updateImageLabel_found JSON_parse JSON_stringify w id_ newLabel k Hk)
      as (_ & Hs & _).
    right. eexists. exact Hs.
  - rewrite (updateImageLabel_missing JSON_parse JSON_stringify w id_ newLabel Hno).
    cbn [snd]. destruct (storedSnapshot' w); [now left|].
    right. eexists. reflexivity.
Qed.

(** X6. No method of the service reads or writes any [localStorage] key other
    than [STORAGE_KEY]: every other key keeps its value. *)
Theorem service_leaves_other_keys (w : World) (key : string) :
  key <> STORAGE_KEY ->
  localStorage (snd (initializeData' w)) !! key = localStorage w !! key /\
  localStorage (snd (fetchImages' w)) !! key = localStorage w !! key /\
  (forall id_ newLabel,
      localStorage (snd (updateImageLabel' id_ newLabel w)) !! key
      = localStorage w !! key) /\
  (forall now url_ label_,
      localStorage (snd (addImage' now url_ label_ w)) !! key
      = localStorage w !! key) /\
  (forall id_,
      localStorage (snd (deleteImage' id_ w)) !! key = localStorage w !! key) /\
  localStorage (snd (resetToDemo w)) !! key = localStorage w !! key /\
  (forall urlText,
      localStorage (snd (configureRemote urlText w)) !! key = localStorage w !! key).
Proof.
  intros Hkey.
  assert (Hinit : localStorage (snd (initializeData' w)) !! key = localStorage w !! key).
  { destruct (initializeData_world w) as [-> | ->]; [reflexivity|].
    cbn. now rewrite lookup_insert_ne. }
  split; [exact Hinit|]. split; [|split; [|split; [|split; [|split]]]].
  - destruct (fetchImages_world w) as [-> | ->]; [reflexivity | exact Hinit].
  - intros id_ newLabel.
    destruct (updateImageLabel_storage w id_ newLabel) as [-> | [text ->]];
      [reflexivity | now rewrite lookup_insert_ne].
  - intros now url_ label_.
    destruct (addImage_run JSON_parse JSON_stringify w now url_ label_) as (_ & -> & _).
    now rewrite lookup_insert_ne.
  - intros id_.
    destruct (deleteImage_run JSON_parse JSON_stringify w id_) as (_ & -> & _).
    now rewrite lookup_insert_ne.
  - rewrite resetToDemo_run. cbn. now rewrite lookup_delete_ne.
  - intros urlText. rewrite configureRemote_run.
    destruct (sheetIdMatch urlText); reflexivity.
Qed.

End ServiceMore.

Section CodecLaws.

Variable JSON_parse : string -> option (list ImageData).
Variable JSON_stringify : list ImageData -> string.
Variable network : string -> FetchResult.

(** [JSON.parse] reads back what [JSON.stringify] printed, and that text is
    never empty. *)
Hypothesis parse_stringify_law :
  forall l, JSON_parse (JSON_stringify l) = Some l.
Hypothesis stringify_truthy_law :
  forall l, Js.truthy (JSON_stringify l) = true.

Local Abbreviation storedSnapshot' := (storedSnapshot JSON_parse).
Local Abbreviation loadedSnapshot' := (loadedSnapshot JSON_parse).
Local Abbreviation updateImageLabel' := (updateImageLabel JSON_parse JSON_stringify).
Local Abbreviation addImage' := (addImage JSON_parse JSON_stringify).
Local Abbreviation deleteImage' := (deleteImage JSON_parse JSON_stringify).

Lemma storedSnapshot_written (w : World) (m : gmap string string)
      (snapshot : list ImageData) :
  localStorage w = <[STORAGE_KEY := JSON_stringify snapshot]> m ->
  storedSnapshot' w = Some snapshot /\ loadedSnapshot' w = snapshot.
Proof.
  intros Hs. unfold loadedSnapshot, storedSnapshot.
  rewrite Hs, lookup_insert_eq, stringify_truthy_law, parse_stringify_law.
  split; reflexivity.
Qed.

(** X3. [deleteImage] never throws; afterwards the cache-backed snapshot is
    the old one without the records of that id, in the old order, and a
    second deletion of the same id changes nothing. *)
Theorem deleteImage_removes_id (w : World) (id_ : string) :
  let w' := snd (deleteImage' id_ w) in
  fst (deleteImage' id_ w) = Return tt /\
  loadedSnapshot' w' = filter (fun img => id img <> id_) (loadedSnapshot' w) /\
  (id_ ∉ ids (loadedSnapshot' w')) /\
  snd (deleteImage' id_ w') = w'.
Proof.
  cbv zeta.
  destruct (deleteImage_run JSON_parse JSON_stringify w id_) as (Hr & Hs & Hc & Hd).
  destruct (storedSnapshot_written _ _ _ Hs) as [Hstored Hloaded].
  assert (Hno : id_ ∉ ids (filter (fun img => id img <> id_) (loadedSnapshot' w))).
  { unfold ids. intros Hin. apply list_elem_of_In, in_map_iff in Hin as (img & Hid & Himg).
    apply list_elem_of_In, list_elem_of_filter in Himg as [Hne _]. congruence. }
  split; [exact Hr|]. split; [exact Hloaded|]. split; [now rewrite Hloaded|].
  destruct (deleteImage_run JSON_parse JSON_stringify
              (snd (deleteImage' id_ w)) id_) as (_ & Hs2 & Hc2 & Hd2).
  rewrite Hloaded, (filter_other_ids _ _ Hno) in Hs2.
  rewrite Hs, insert_insert_eq in Hs2. rewrite <- Hs in Hs2.
  destruct (snd (deleteImage' id_ (snd (deleteImage' id_ w)))) as [ls2 d2 c2].
  destruct (snd (deleteImage' id_ w)) as [ls1 d1 c1].
  cbn in *. congruence.
Qed.

(** X4. [addImage] returns the record it appended at the end of the snapshot;
    when the clock reading is not yet an id, deleting that record by its id
    gives the old snapshot back. *)
Theorem addImage_then_deleteImage (w : World) (now : N) (url_ label_ : string) :
  Js.toString now ∉ ids (loadedSnapshot' w) ->
  let newImage := mkImage (Js.toString now) url_ label_ None in
  let w1 := snd (addImage' now url_ label_ w) in
  fst (addImage' now url_ label_ w) = Return newImage /\
  loadedSnapshot' w1 = loadedSnapshot' w ++ [newImage] /\
  loadedSnapshot' (snd (deleteImage' (id newImage) w1)) = loadedSnapshot' w.
Proof.
  intros Hfresh. cbv zeta.
  destruct (addImage_run JSON_parse JSON_stringify w now url_ label_) as (Hr & Hs & _).
  destruct (storedSnapshot_written _ _ _ Hs) as [_ Hloaded].
  split; [exact Hr|]. split; [exact Hloaded|].
  destruct (deleteImage_run JSON_parse JSON_stringify
              (snd (addImage' now url_ label_ w)) (Js.toString now)) as (_ & Hs2 & _).
  destruct (storedSnapshot_written _ _ _ Hs2) as [_ Hloaded2].
  cbn [id]. rewrite Hloaded2, Hloaded, filter_app, (filter_other_ids _ _ Hfresh).
  rewrite filter_cons_False by (cbn; intros H; now apply H).
  cbn. apply app_nil_r.
Qed.

(** X2. Two updates in a row to records with different ids both land: each is
    a read-modify-write of the stored snapshot, so the second keeps what the
    first wrote. *)
Theorem updateImageLabel_twice (w : World) (id1 id2 label1 label2 : string) :
  id1 <> id2 ->
  id1 ∈ ids (loadedSnapshot' w) -> id2 ∈ ids (loadedSnapshot' w) ->
  let w1 := snd (updateImageLabel' id1 label1 w) in
  let w2 := snd (updateImageLabel' id2 label2 w1) in
  fst (updateImageLabel' id1 label1 w) = Return tt /\
  fst (updateImageLabel' id2 label2 w1) = Return tt /\
  ids (loadedSnapshot' w2) = ids (loadedSnapshot' w) /\
  exists k1 k2 img1 img2,
    loadedSnapshot' w !! k1 = Some img1 /\ id img1 = id1 /\
    loadedSnapshot' w !! k2 = Some img2 /\ id img2 = id2 /\
    loadedSnapshot' w2 !! k1 = Some (setLabel label1 img1) /\
    loadedSnapshot' w2 !! k2 = Some (setLabel label2 img2) /\
    (forall j, j <> k1 -> j <> k2 -> loadedSnapshot' w2 !! j = loadedSnapshot' w !! j).
Proof.
  intros Hne Hin1 Hin2. cbv zeta.
  destruct (findIndex_present _ _ Hin1) as (k1 & img1 & Hk1 & Hl1 & Hid1 & _).
  destruct (updateImageLabel_found JSON_parse JSON_stringify w id1 label1 k1 Hk1)
    as (Hr1 & Hs1 & _).
  destruct (storedSnapshot_written _ _ _ Hs1) as [_ Hloaded1].
  set (w1 := snd (updateImageLabel' id1 label1 w)) in *.
  assert (Hids1 : ids (loadedSnapshot' w1) = ids (loadedSnapshot' w))
    by (rewrite Hloaded1; apply ids_alter_setLabel).
  assert (Hin2' : id2 ∈ ids (loadedSnapshot' w1)) by now rewrite Hids1.
  destruct (findIndex_present _ _ Hin2') as (k2 & img2' & Hk2 & Hl2 & Hid2 & _).
  destruct (updateImageLabel_found JSON_parse JSON_stringify w1 id2 label2 k2 Hk2)
    as (Hr2 & Hs2 & _).
  destruct (storedSnapshot_written _ _ _ Hs2) as [_ Hloaded2].
  assert (Hk : k1 <> k2).
  { intros <-. rewrite Hloaded1, list_lookup_alter, decide_True, Hl1 in Hl2 by reflexivity.
    cbn in Hl2. injection Hl2 as <-. cbn in Hid2. congruence. }
  assert (Hl2w : loadedSnapshot' w !! k2 = Some img2').
  { rewrite Hloaded1, list_lookup_alter, decide_False in Hl2 by exact Hk. exact Hl2. }
  split; [exact Hr1|]. split; [exact Hr2|]. split.
  - rewrite Hloaded2, ids_alter_setLabel. exact Hids1.
  - exists k1, k2, img1, img2'. repeat split; try assumption.
    + rewrite Hloaded2, list_lookup_alter, decide_False by congruence.
      rewrite Hloaded1, list_lookup_alter, decide_True, Hl1 by reflexivity. reflexivity.
    + rewrite Hloaded2, list_lookup_alter, decide_True, Hl2 by reflexivity. reflexivity.
    + intros j Hj1 Hj2.
      rewrite Hloaded2, list_lookup_alter, decide_False by congruence.
      rewrite Hloaded1, list_lookup_alter, decide_False by congruence. reflexivity.
Qed.

Lemma ids_filter (P : ImageData -> Prop) `{forall x, Decision (P x)}
      (l : list ImageData) (x : string) :
  x ∈ ids (filter P l) -> x ∈ ids l.
Proof.
  unfold ids. intros Hin.
  apply list_elem_of_In, in_map_iff in Hin as (img & Hid & Himg).
  apply list_elem_of_In, list_elem_of_filter in Himg as [_ Himg].
  apply list_elem_of_In, in_map_iff. exists img. split; [exact Hid|].
  now apply list_elem_of_In.
Qed.

Lemma NoDup_ids_filter (P : ImageData -> Prop) `{forall x, Decision (P x)}
      (l : list ImageData) :
  NoDup (ids l) -> NoDup (ids (filter P l)).
Proof.
  induction l as [|img l IH]; [intros _; constructor|].
  unfold ids. cbn [map]. intros [Hno Hnd]%NoDup_cons.
  destruct (decide (P img)) as [Hp|Hp].
  - rewrite filter_cons_True by exact Hp. cbn [map]. apply NoDup_cons. split.
    + intros Hin. apply Hno. eapply ids_filter. exact Hin.
    + now apply IH.
  - rewrite filter_cons_False by exact Hp. now apply IH.
Qed.

(** X5. The mutations keep ids distinct, the time-based id of [addImage]
    apart: [updateImageLabel], whether it returns or throws, leaves the list
    of ids of the cache-backed snapshot as it was; [deleteImage] keeps
    distinct ids distinct; [addImage] does so when the clock reading is not
    yet an id. *)
Theorem mutations_keep_ids (w : World) :
  (forall id_ newLabel,
      ids (loadedSnapshot' (snd (updateImageLabel' id_ newLabel w)))
      = ids (loadedSnapshot' w)) /\
  (NoDup (ids (loadedSnapshot' w)) ->
   forall id_, NoDup (ids (loadedSnapshot' (snd (deleteImage' id_ w))))) /\
  (NoDup (ids (loadedSnapshot' w)) ->
   forall now url_ label_,
     Js.toString now ∉ ids (loadedSnapshot' w) ->
     NoDup (ids (loadedSnapshot' (snd (addImage' now url_ label_ w))))).
Proof.
  split; [|split].
  - intros id_ newLabel.
    destruct (decide (id_ ∈ ids (loadedSnapshot' w))) as [Hin|Hno].
    + destruct (findIndex_present _ _ Hin) as (k & img & Hk & _).
      destruct (updateImageLabel_found JSON_parse JSON_stringify w id_ newLabel k Hk)
        as (_ & Hs & _).
      destruct (storedSnapshot_written _ _ _ Hs) as [_ ->].
      apply ids_alter_setLabel.
    + rewrite (updateImageLabel_missing JSON_parse JSON_stringify w id_ newLabel Hno).
      cbn [snd]. destruct (storedSnapshot' w) eqn:Hst; [reflexivity|].
      assert (Hseed : loadedSnapshot' (seeded JSON_stringify w) = demoArray w)
        by (eapply storedSnapshot_written; reflexivity).
      rewrite Hseed. unfold loadedSnapshot. now rewrite Hst.
  - intros Hnd id_.
    destruct (deleteImage_run JSON_parse JSON_stringify w id_) as (_ & Hs & _).
    destruct (storedSnapshot_written _ _ _ Hs) as [_ ->].
    now apply NoDup_ids_filter.
  - intros Hnd now url_ label_ Hfresh.
    destruct (addImage_run JSON_parse JSON_stringify w now url_ label_) as (_ & Hs & _).
    destruct (storedSnapshot_written _ _ _ Hs) as [_ ->].
    now apply addImage_fresh_id_distinct.
Qed.

End CodecLaws.

Section Remote.

Variable JSON_parse : string -> option (list ImageData).
Variable JSON_stringify : list ImageData -> string.
Variable network : string -> FetchResult.

Local Abbreviation fetchImages' := (fetchImages JSON_parse JSON_stringify network).
Local Abbreviation loadedSnapshot' := (loadedSnapshot JSON_parse).

Lemma fetchImages_remote_run (w : World) (u csvText : string) (status : N) :
  default false (useMockData (config w)) = false ->
  sheetUrl (config w) = Some u -> u <> EmptyString ->
  network u = FetchResponse true status (Return csvText) ->
  fetchImages' w = (Return (Fresh (parseCSV csvText)), w).
Proof.
  intros Hmock Hu Hne Hnet. unfold fetchImages, bind, getConfig. cbn. rewrite Hmock.
  unfold tryCatch, fetchRemote, bind, getConfig. cbn. rewrite Hu.
  apply truthy_true_iff in Hne. rewrite Hne, Hnet. reflexivity.
Qed.

(** X7. A successful remote fetch returns the parsed document and leaves the
    world as it was: nothing is written to the cache.  So a label update of
    an id that is not in the cache-backed snapshot still throws, whether or
    not the fetched document has a record with that id. *)
Theorem fetchImages_remote_not_cached (w : World) (u csvText : string) (status : N) :
  default false (useMockData (config w)) = false ->
  sheetUrl (config w) = Some u -> u <> EmptyString ->
  network u = FetchResponse true status (Return csvText) ->
  fetchImages' w = (Return (Fresh (parseCSV csvText)), w) /\
  (forall id_ newLabel,
      id_ ∉ ids (loadedSnapshot' w) ->
      fst (updateImageLabel JSON_parse JSON_stringify id_ newLabel
             (snd (fetchImages' w)))
      = Throw (Error "Image not found")).
Proof.
  intros Hmock Hu Hne Hnet.
  rewrite (fetchImages_remote_run w u csvText status Hmock Hu Hne Hnet).
  split; [reflexivity|]. intros id_ newLabel Hno. cbn [snd].
  now rewrite (updateImageLabel_missing JSON_parse JSON_stringify w id_ newLabel Hno).
Qed.

(** X8. After [configureRemote] accepted a URL, [fetchImages] asks the network
    for the normalised URL and returns the parsed body; the cache is not
    touched on the way. *)
Theorem configureRemote_then_fetchImages (w : World) (urlText csvUrl csvText : string)
        (status : N) :
  convertToCSVUrl urlText = Return csvUrl ->
  network csvUrl = FetchResponse true status (Return csvText) ->
  let w1 := snd (configureRemote urlText w) in
  fst (configureRemote urlText w) = Return tt /\
  localStorage w1 = localStorage w /\
  fetchImages' w1 = (Return (Fresh (parseCSV csvText)), w1).
Proof.
  intros Hconv Hnet. cbv zeta. rewrite configureRemote_run.
  unfold convertToCSVUrl in Hconv.
  destruct (sheetIdMatch urlText) as [g|]; [|discriminate].
  injection Hconv as <-. cbn [fst snd localStorage].
  split; [reflexivity|]. split; [reflexivity|].
  eapply fetchImages_remote_run; try reflexivity; [discriminate | exact Hnet].
Qed.

(** X9. [resetToDemo] keeps the configured [sheetUrl], switches to mock data
    and empties the cache slot; the next [fetchImages] does not depend on
    the network. *)
Theorem resetToDemo_stops_network (w : World) (network2 : string -> FetchResult) :
  let w1 := snd (resetToDemo w) in
  sheetUrl (config w1) = sheetUrl (config w) /\
  useMockData (config w1) = Some true /\
  localStorage w1 !! STORAGE_KEY = None /\
  fetchImages' w1 = fetchImages JSON_parse JSON_stringify network2 w1.
Proof.
  cbv zeta. rewrite resetToDemo_run. cbn [snd config sheetUrl useMockData localStorage].
  repeat split. apply lookup_delete_eq.
Qed.

End Remote.

(** X10. A published URL, the output of [convertToCSVUrl] included, is
    itself accepted, with the letter e of its own path taken for the sheet
    id. *)
Theorem convertToCSVUrl_published_url (rest : string) :
  convertToCSVUrl ("https://docs.google.com/spreadsheets/d/e/" +:+ rest)
  = Return (csvUrlFor "e").
Proof.
  unfold convertToCSVUrl, csvUrlFor. push_append. reflexivity.
Qed.


(** ** The components *)

Lemma setLabel_setLabel (a b : string) (img : ImageData) :
  setLabel a (setLabel b img) = setLabel a img.
Proof. reflexivity. Qed.

Lemma ids_lookup (l : list ImageData) (j : nat) (x : ImageData) :
  l !! j = Some x -> ids l !! j = Some (id x).
Proof. intros H. unfold ids. change (map id l) with (id <$> l). now rewrite list_lookup_fmap, H. Qed.

(** With distinct ids, relabelling every record with an id is the update of
    the one record that has it. *)
Lemma map_relabel_alter (id_ newLabel : string) (l : list ImageData)
      (k : nat) (img : ImageData) :
  NoDup (ids l) -> l !! k = Some img -> id img = id_ ->
  map (Index.relabel id_ newLabel) l = alter (setLabel newLabel) k l.
Proof.
  intros Hnd Hk Hid. apply list_eq. intros j.
  change (map (Index.relabel id_ newLabel) l) with (Index.relabel id_ newLabel <$> l).
  rewrite list_lookup_fmap, list_lookup_alter.
  destruct (decide (k = j)) as [<-|Hne].
  - rewrite Hk. cbn. unfold Index.relabel. now rewrite Hid, String.eqb_refl.
  - destruct (l !! j) as [x|] eqn:Hj; [|reflexivity]. cbn. f_equal.
    unfold Index.relabel. destruct (String.eqb_spec (id x) id_) as [Heq|]; [|reflexivity].
    exfalso. apply Hne. eapply NoDup_lookup; [exact Hnd | |].
    + apply ids_lookup. exact Hk.
    + rewrite (ids_lookup _ _ _ Hj). congruence.
Qed.

Lemma alter_setLabel_twice (newLabel : string) (k : nat) (l : list ImageData) :
  alter (setLabel newLabel) k (alter (setLabel newLabel) k l)
  = alter (setLabel newLabel) k l.
Proof.
  revert k. induction l as [|x l IH]; intros [|k]; cbn; try reflexivity.
  f_equal. apply IH.
Qed.

Section IndexProperties.

Import Ui.

Variable JSON_parse : string -> option (list ImageData).
Variable JSON_stringify : list ImageData -> string.
Variable network : string -> FetchResult.

Hypothesis parse_stringify_law :
  forall l, JSON_parse (JSON_stringify l) = Some l.
Hypothesis stringify_truthy_law :
  forall l, Js.truthy (JSON_stringify l) = true.

Local Abbreviation loadedSnapshot' := (loadedSnapshot JSON_parse).
Local Abbreviation handleUpdateLabel' := (Index.handleUpdateLabel JSON_parse JSON_stringify).

Lemma loadedSnapshot_written (w : World) (m : gmap string string)
      (snapshot : list ImageData) :
  localStorage w = <[STORAGE_KEY := JSON_stringify snapshot]> m ->
  loadedSnapshot' w = snapshot.
Proof.
  intros Hs. unfold loadedSnapshot, storedSnapshot.
  now rewrite Hs, lookup_insert_eq, stringify_truthy_law, parse_stringify_law.
Qed.

(** X15. [Index.handleUpdateLabel] keeps the page in step with the cache: if
    the records on display are the cache-backed snapshot and ids are
    distinct, then after an update of an id that is there the records on
    display are again the cache-backed snapshot, with that one record
    relabelled and ids still distinct. *)
Theorem handleUpdateLabel_in_sync (a : App) (id_ newLabel : string) :
  NoDup (ids (loadedSnapshot' (world a))) ->
  displayed a = loadedSnapshot' (world a) ->
  id_ ∈ ids (loadedSnapshot' (world a)) ->
  let r := handleUpdateLabel' id_ newLabel a in
  fst r = Return tt /\
  displayed (snd r) = loadedSnapshot' (world (snd r)) /\
  NoDup (ids (displayed (snd r))) /\
  exists k img,
    loadedSnapshot' (world a) !! k = Some img /\ id img = id_ /\
    displayed (snd r) = <[k := setLabel newLabel img]> (loadedSnapshot' (world a)).
Proof.
  intros Hnd Hsync Hin. cbv zeta.
  destruct (findIndex_present _ _ Hin) as (k & img & Hk & Hl & Hid & _).
  destruct (updateImageLabel_found JSON_parse JSON_stringify (world a) id_ newLabel k Hk)
    as (Hr & Hs & _ & Hd).
  pose proof (loadedSnapshot_written _ _ _ Hs) as Hloaded.
  unfold Index.handleUpdateLabel.
  destruct (updateImageLabel JSON_parse JSON_stringify id_ newLabel (world a))
    as [[u|e] w] eqn:Hu; cbn [fst snd] in *; [|discriminate].
  set (l := loadedSnapshot' (world a)) in *.
  assert (Hdisp : map (Index.relabel id_ newLabel)
                      (displayed (setWorld w a)) = alter (setLabel newLabel) k l).
  { unfold displayed. cbn [world images setWorld].
    unfold displayed in Hsync.
    destruct (images a) as [|shown]; cbn [contentsOf] in *.
    - rewrite Hd. subst l. unfold loadedSnapshot in *.
      destruct (storedSnapshot JSON_parse (world a)) as [stored|]; cbn [default] in *.
      + rewrite Hsync. apply (map_relabel_alter id_ newLabel _ k img); assumption.
      + rewrite (map_relabel_alter id_ newLabel _ k (setLabel newLabel img)).
        * apply alter_setLabel_twice.
        * now rewrite ids_alter_setLabel.
        * rewrite list_lookup_alter, decide_True, Hl by reflexivity. reflexivity.
        * exact Hid.
    - rewrite Hsync. apply (map_relabel_alter id_ newLabel _ k img); assumption. }
  set (a' := setImages (Fresh (map (Index.relabel id_ newLabel)
                                   (displayed (setWorld w a)))) (setWorld w a)).
  assert (Hshown : displayed a' = alter (setLabel newLabel) k l)
    by (unfold displayed at 1; cbn [a' world images setImages contentsOf];
        exact Hdisp).
  assert (Hworld : world a' = w) by reflexivity.
  split; [reflexivity|]. rewrite Hshown, Hworld, Hloaded.
  split; [reflexivity|]. split.
  - now rewrite ids_alter_setLabel.
  - exists k, img. repeat split; try assumption.
    apply list_eq. intros j. rewrite list_lookup_alter.
    destruct (decide (k = j)) as [<-|Hne].
    + rewrite Hl, list_lookup_insert_eq by (eapply lookup_lt_Some; exact Hl). reflexivity.
    + now rewrite list_lookup_insert_ne.
Qed.

End IndexProperties.

Section ComponentProperties.

Import Ui.

Variable JSON_parse : string -> option (list ImageData).
Variable JSON_stringify : list ImageData -> string.
Variable network : string -> FetchResult.

Local Abbreviation loadedSnapshot' := (loadedSnapshot JSON_parse).
Local Abbreviation storedSnapshot' := (storedSnapshot JSON_parse).
Local Abbreviation fetchImages' := (fetchImages JSON_parse JSON_stringify network).
Local Abbreviation onUpdateLabel := (Index.handleUpdateLabel JSON_parse JSON_stringify).
Local Abbreviation onRefresh := (Index.handleRefresh JSON_parse JSON_stringify network).

Lemma fetchImages_returns (w : World) :
  exists r w', fetchImages' w = (Return r, w').
Proof.
  assert (Hinit : exists r w', initializeData JSON_parse JSON_stringify w = (Return r, w')).
  { rewrite initializeData_cases. destruct (storedSnapshot' w); eauto. }
  unfold fetchImages, bind, getConfig. cbn.
  destruct (default false (useMockData (config w))); [exact Hinit|].
  unfold tryCatch. pose proof (fetchRemote_world network w) as Hw.
  destruct (fetchRemote network w) as [[r|e] w1]; cbn in Hw; subst w1; eauto.
Qed.

(** X17. [ImageGallery.handleRefresh] over [Index.handleRefresh] always ends
    with the toast for success, whatever the network did, since neither
    [fetchImages] nor [loadImages] throws; the records on display are those
    [fetchImages] returned and both busy flags are off. *)
Theorem handleRefresh_reports_success (a : App) :
  let a' := ImageGallery.handleRefresh onRefresh a in
  toasts a' = toasts a ++ [ImageGallery.refreshed] /\
  loading a' = false /\ refreshing a' = false /\
  snapshotOf (fetchImages' (world a)) = Some (displayed a').
Proof.
  cbv zeta. unfold ImageGallery.handleRefresh, Index.handleRefresh, Index.loadImages.
  cbn [world setLoading setRefreshing].
  destruct (fetchImages_returns (world a)) as (r & w' & ->).
  cbn. repeat split.
Qed.

(** X16. [ImageCard.handleSave] wired to [Index.handleUpdateLabel]: when the
    trimmed text is the current label, editing ends and nothing else
    happens; when the id is missing from the snapshot, the failure is
    reported, the text goes back to the current label and editing stays
    open; otherwise the trimmed text is stored as the label of the record
    and success is reported. *)
Theorem handleSave_cases (image : ImageData) (c : ImageCard.State) (a : App) :
  let newLabel := Js.trim (ImageCard.editedLabel c) in
  let r := ImageCard.handleSave image onUpdateLabel c a in
  (newLabel = label image ->
   r = (ImageCard.mkState false (ImageCard.editedLabel c) (ImageCard.isUpdating c), a)) /\
  (newLabel <> label image -> id image ∉ ids (loadedSnapshot' (world a)) ->
   fst r = ImageCard.mkState (ImageCard.isEditing c) (label image) false /\
   toasts (snd r) = toasts a ++ [ImageCard.updateFailed] /\
   images (snd r) = images a /\
   (forall stored, storedSnapshot' (world a) = Some stored ->
                   world (snd r) = world a)) /\
  (newLabel <> label image -> id image ∈ ids (loadedSnapshot' (world a)) ->
   fst r = ImageCard.mkState false (ImageCard.editedLabel c) false /\
   toasts (snd r) = toasts a ++ [ImageCard.labelUpdated] /\
   exists k img,
     loadedSnapshot' (world a) !! k = Some img /\ id img = id image /\
     localStorage (world (snd r)) !! STORAGE_KEY
     = Some (JSON_stringify (<[k := setLabel newLabel img]> (loadedSnapshot' (world a))))).
Proof.
  cbv zeta. unfold ImageCard.handleSave.
  destruct (String.eqb_spec (Js.trim (ImageCard.editedLabel c)) (label image)) as [Heq|Hne].
  - split; [reflexivity|]. split; intros; contradiction.
  - split; [intros; contradiction|]. split.
    + intros _ Hno. unfold Index.handleUpdateLabel.
      rewrite (updateImageLabel_missing JSON_parse JSON_stringify _ _ _ Hno).
      cbn. repeat split. intros stored ->. reflexivity.
    + intros _ Hin.
      destruct (findIndex_present _ _ Hin) as (k & img & Hk & Hl & Hid & _).
      destruct (updateImageLabel_found JSON_parse JSON_stringify (world a)
                  (id image) (Js.trim (ImageCard.editedLabel c)) k Hk)
        as (Hr & Hs & _).
      unfold Index.handleUpdateLabel.
      destruct (updateImageLabel JSON_parse JSON_stringify (id image)
                  (Js.trim (ImageCard.editedLabel c)) (world a))
        as [[u|e] w] eqn:Hu; cbn [fst snd] in *; [|discriminate].
      cbn. split; [reflexivity|]. split; [reflexivity|].
      exists k, img. split; [exact Hl|]. split; [exact Hid|].
      rewrite Hs, lookup_insert_eq. do 2 f_equal.
      apply list_eq. intros j. rewrite list_lookup_alter.
      destruct (decide (k = j)) as [<-|Hkj].
      * rewrite Hl, list_lookup_insert_eq by (eapply lookup_lt_Some; exact Hl). reflexivity.
      * now rewrite list_lookup_insert_ne.
Qed.

(** X19. [GoogleSheetsSetup.handleUseDemo] followed by the refresh it fires:
    the dialog closes, mock data is on, the cache holds the demo array, that
    array is on display, and two toasts were shown. *)
Theorem handleUseDemo_shows_demo (s : GoogleSheetsSetup.State) (a : App) :
  let r := GoogleSheetsSetup.handleUseDemo
             (Some (ImageGallery.handleRefresh onRefresh)) s a in
  GoogleSheetsSetup.isOpen (fst r) = false /\
  displayed (snd r) = demoArray (world a) /\
  localStorage (world (snd r)) !! STORAGE_KEY
    = Some (JSON_stringify (demoArray (world a))) /\
  useMockData (config (world (snd r))) = Some true /\
  toasts (snd r)
    = toasts a ++ [GoogleSheetsSetup.demoModeEnabled; ImageGallery.refreshed].
Proof.
  cbv zeta. unfold GoogleSheetsSetup.handleUseDemo, GoogleSheetsSetup.callOnConfigured.
  cbn [fst snd GoogleSheetsSetup.isOpen].
  unfold ImageGallery.handleRefresh, Index.handleRefresh, Index.loadImages.
  cbn [world setWorld toast setRefreshing setLoading].
  destruct (resetToDemo_fetchImages JSON_parse JSON_stringify network (world a))
    as [Hf Hc].
  rewrite Hf. unfold displayed.
  cbn [world images toasts setWorld setImages setLoading setRefreshing toast contentsOf].
  rewrite resetToDemo_run.
  cbn [snd seeded demoArray localStorage config useMockData].
  rewrite lookup_insert_eq, <- app_assoc. repeat split.
Qed.

End ComponentProperties.

(** ** The setup dialog *)

Lemma trimEnd_empty (s : string) :
  Js.trimEnd s = EmptyString -> allWhiteSpace s = true.
Proof.
  induction s as [|c s IH]; [reflexivity|]. cbn [Js.trimEnd allWhiteSpace].
  destruct (Js.trimEnd s); [|discriminate].
  destruct (Js.isWhiteSpace c); [intros _; now apply IH | discriminate].
Qed.

Lemma trimStart_allWhiteSpace (s : string) :
  allWhiteSpace (Js.trimStart s) = true -> allWhiteSpace s = true.
Proof.
  induction s as [|c s IH]; [reflexivity|]. cbn [Js.trimStart allWhiteSpace].
  destruct (Js.isWhiteSpace c) eqn:Hc; [exact IH|].
  cbn [allWhiteSpace]. now rewrite Hc.
Qed.

Lemma sheetIdMatch_allWhiteSpace (s : string) :
  allWhiteSpace s = true -> sheetIdMatch s = None.
Proof.
  induction s as [|c s IH]; [reflexivity|]. cbn [allWhiteSpace].
  intros [Hc Hs]%andb_true_iff. cbn [sheetIdMatch].
  assert (Hm : matchHere (String c s) = None).
  { unfold matchHere. cbn [Js.dropPrefix].
    destruct (Ascii.eqb_spec "/" c) as [<-|]; [discriminate Hc | reflexivity]. }
  rewrite Hm. now apply IH.
Qed.

Lemma blank_not_converted (s : string) :
  Js.truthy (Js.trim s) = false -> sheetIdMatch s = None.
Proof.
  intros H%truthy_false_iff. apply sheetIdMatch_allWhiteSpace, trimStart_allWhiteSpace.
  now apply trimEnd_empty.
Qed.

Section SetupProperties.

Import Ui.

(** X18. [GoogleSheetsSetup.handleSubmit] configures the service exactly when
    [convertToCSVUrl] accepts the text: the blank-input guard never stops an
    acceptable URL.  On rejection, blank or not, only the invalid-URL toast
    is added and the dialog stays as it was. *)
Theorem handleSubmit_cases (onConfigured : option (App -> App))
        (s : GoogleSheetsSetup.State) (a : App) :
  (forall csvUrl,
      convertToCSVUrl (GoogleSheetsSetup.sheetUrl s) = Return csvUrl ->
      exists a1,
        GoogleSheetsSetup.handleSubmit onConfigured s a
        = (GoogleSheetsSetup.mkState (GoogleSheetsSetup.sheetUrl s) false,
           GoogleSheetsSetup.callOnConfigured onConfigured a1) /\
        config (world a1) = mkConfig (Some csvUrl) (Some false) /\
        localStorage (world a1) = localStorage (world a) /\
        images a1 = images a /\
        toasts a1 = toasts a ++ [GoogleSheetsSetup.configurationSaved]) /\
  (forall e,
      convertToCSVUrl (GoogleSheetsSetup.sheetUrl s) = Throw e ->
      GoogleSheetsSetup.handleSubmit onConfigured s a
      = (s, toast GoogleSheetsSetup.invalidUrl a)).
Proof.
  unfold GoogleSheetsSetup.handleSubmit, convertToCSVUrl.
  pose proof (blank_not_converted (GoogleSheetsSetup.sheetUrl s)) as Hblank.
  destruct (Js.truthy (Js.trim (GoogleSheetsSetup.sheetUrl s))); cbn [negb].
  - destruct (sheetIdMatch (GoogleSheetsSetup.sheetUrl s)) as [g|]; split;
      try discriminate; try reflexivity.
    intros csvUrl [= <-]. eexists. split; [reflexivity|]. repeat split.
  - rewrite (Hblank eq_refl). split; [discriminate | reflexivity].
Qed.

End SetupProperties.

(** ** The further theorems at concrete inputs *)

(** The cache holding the demo set, in demo mode. *)
Lemma updateImageLabel_existing_id_witness :
  exists k img,
    loadedSnapshot JsonText.parse (Ui.world firstLoad) !! k = Some img /\
    id img = "2" /\
    (forall j img',
        loadedSnapshot JsonText.parse (Ui.world firstLoad) !! j = Some img' ->
        (j < k)%nat -> id img' <> "2") /\
    fst (updateImageLabel JsonText.parse JsonText.stringify "2" "Woods"
           (Ui.world firstLoad)) = Return tt /\
    localStorage
      (snd (updateImageLabel JsonText.parse JsonText.stringify "2" "Woods"
              (Ui.world firstLoad))) !! STORAGE_KEY
    = Some (JsonText.stringify
              (<[k := setLabel "Woods" img]>
                 (loadedSnapshot JsonText.parse (Ui.world firstLoad)))).
Proof.
  apply (updateImageLabel_existing_id JsonText.parse JsonText.stringify
           (Ui.world firstLoad) "2" "Woods").
  by_computation.
Defined.

Lemma updateImageLabel_twice_witness :
  ids (loadedSnapshot JsonText.parse
         (snd (updateImageLabel JsonText.parse JsonText.stringify "2" "Woods"
                 (snd (updateImageLabel JsonText.parse JsonText.stringify "1" "Peak"
                         (Ui.world firstLoad))))))
  = ids (loadedSnapshot JsonText.parse (Ui.world firstLoad)).
Proof.
  apply (updateImageLabel_twice JsonText.parse JsonText.stringify
           parse_stringify stringify_truthy (Ui.world firstLoad) "1" "2" "Peak" "Woods").
  - discriminate.
  - by_computation.
  - by_computation.
Defined.

Lemma deleteImage_removes_id_witness :
  loadedSnapshot JsonText.parse
    (snd (deleteImage JsonText.parse JsonText.stringify "2" (Ui.world firstLoad)))
  = filter (fun img => id img <> "2")
           (loadedSnapshot JsonText.parse (Ui.world firstLoad)).
Proof.
  apply (deleteImage_removes_id JsonText.parse JsonText.stringify
           parse_stringify stringify_truthy (Ui.world firstLoad) "2").
Defined.

Lemma addImage_then_deleteImage_witness :
  loadedSnapshot JsonText.parse
    (snd (deleteImage JsonText.parse JsonText.stringify "1700000000000"
            (snd (addImage JsonText.parse JsonText.stringify 1700000000000
                    "https://x/a.jpg" "A" (Ui.world firstLoad)))))
  = loadedSnapshot JsonText.parse (Ui.world firstLoad).
Proof.
  apply (addImage_then_deleteImage JsonText.parse JsonText.stringify
           parse_stringify stringify_truthy (Ui.world firstLoad)
           1700000000000 "https://x/a.jpg" "A").
  by_computation.
Defined.

Lemma mutations_keep_ids_witness :
  NoDup (ids (loadedSnapshot JsonText.parse
                (snd (deleteImage JsonText.parse JsonText.stringify "2"
                        (Ui.world firstLoad))))) /\
  NoDup (ids (loadedSnapshot JsonText.parse
                (snd (addImage JsonText.parse JsonText.stringify 1700000000000
                        "https://x/a.jpg" "A" (Ui.world firstLoad))))).
Proof.
  destruct (mutations_keep_ids JsonText.parse JsonText.stringify
              parse_stringify stringify_truthy (Ui.world firstLoad))
    as (_ & Hdelete & Hadd).
  assert (Hnd : NoDup (ids (loadedSnapshot JsonText.parse (Ui.world firstLoad))))
    by by_computation.
  split.
  - apply (Hdelete Hnd).
  - apply (Hadd Hnd). by_computation.
Defined.

Lemma service_leaves_other_keys_witness :
  localStorage
    (snd (deleteImage JsonText.parse JsonText.stringify "2"
            (moduleLoaded {[ "theme" := "dark" ]}))) !! "theme"
  = Some "dark".
Proof.
  destruct (service_leaves_other_keys JsonText.parse JsonText.stringify offline
              (moduleLoaded {[ "theme" := "dark" ]}) "theme")
    as (_ & _ & _ & _ & Hdelete & _).
  - intros H. vm_compute in H. discriminate H.
  - rewrite Hdelete. vm_compute. reflexivity.
Defined.

Lemma fetchImages_remote_not_cached_witness :
  fetchImages JsonText.parse JsonText.stringify sheetServer (remoteWorld ∅)
  = (Return (Fresh (parseCSV sampleCsv)), remoteWorld ∅).
Proof.
  apply (fetchImages_remote_not_cached JsonText.parse JsonText.stringify sheetServer
           (remoteWorld ∅) (csvUrlFor "abc") sampleCsv 200).
  - reflexivity.
  - reflexivity.
  - intros H. vm_compute in H. discriminate H.
  - vm_compute. reflexivity.
Defined.

Lemma configureRemote_then_fetchImages_witness :
  let w1 := snd (configureRemote "https://docs.google.com/spreadsheets/d/abc/edit"
                   (moduleLoaded ∅)) in
  fetchImages JsonText.parse JsonText.stringify sheetServer w1
  = (Return (Fresh (parseCSV sampleCsv)), w1).
Proof.
  apply (configureRemote_then_fetchImages JsonText.parse JsonText.stringify sheetServer
           (moduleLoaded ∅) "https://docs.google.com/spreadsheets/d/abc/edit"
           (csvUrlFor "abc") sampleCsv 200).
  - vm_compute. reflexivity.
  - vm_compute. reflexivity.
Defined.

Lemma parseCSV_header_discarded_witness :
  parseCSV ("ID,URL,Label" +:+ String lf "1,https://x/a.jpg,Foo")
  = parseCSV ("a,b,c" +:+ String lf "1,https://x/a.jpg,Foo").
Proof.
  apply (parseCSV_header_discarded "ID,URL,Label" "a,b,c" "1,https://x/a.jpg,Foo").
  - intros c Hc. vm_compute in Hc.
    repeat (destruct Hc as [<-|Hc]; [discriminate|]). destruct Hc.
  - intros c Hc. vm_compute in Hc.
    repeat (destruct Hc as [<-|Hc]; [discriminate|]). destruct Hc.
Defined.

Lemma handleUpdateLabel_in_sync_witness :
  let r := Index.handleUpdateLabel JsonText.parse JsonText.stringify "2" "Woods"
             firstLoad in
  fst r = Return tt /\
  Ui.displayed (snd r) = loadedSnapshot JsonText.parse (Ui.world (snd r)).
Proof.
  cbv zeta.
  destruct (handleUpdateLabel_in_sync JsonText.parse JsonText.stringify
              parse_stringify stringify_truthy firstLoad "2" "Woods")
    as (Hr & Hsync & _).
  - by_computation.
  - vm_compute. reflexivity.
  - by_computation.
  - split; [exact Hr | exact Hsync].
Defined.

Lemma handleSave_cases_witness :
  let image := mkImage "2" "https://images.unsplash.com/photo-1441974231531-c6227db76b6e?w=800&h=800&fit=crop" "Forest Path" None in
  let ghost := mkImage "nope" "https://x/a.jpg" "Gone" None in
  ImageCard.handleSave image
    (Index.handleUpdateLabel JsonText.parse JsonText.stringify)
    (ImageCard.mkState true " Forest Path " false) firstLoad
  = (ImageCard.mkState false " Forest Path " false, firstLoad) /\
  fst (ImageCard.handleSave ghost
         (Index.handleUpdateLabel JsonText.parse JsonText.stringify)
         (ImageCard.mkState true "Back" false) firstLoad)
  = ImageCard.mkState true "Gone" false /\
  fst (ImageCard.handleSave image
         (Index.handleUpdateLabel JsonText.parse JsonText.stringify)
         (ImageCard.mkState true " Woods " false) firstLoad)
  = ImageCard.mkState false " Woods " false.
Proof.
  cbv zeta. split; [|split].
  - apply (handleSave_cases JsonText.parse JsonText.stringify). vm_compute. reflexivity.
  - apply (handleSave_cases JsonText.parse JsonText.stringify).
    + intros H. vm_compute in H. discriminate H.
    + by_computation.
  - apply (handleSave_cases JsonText.parse JsonText.stringify).
    + intros H. vm_compute in H. discriminate H.
    + by_computation.
Defined.

Lemma handleSubmit_cases_witness :
  GoogleSheetsSetup.handleSubmit None (GoogleSheetsSetup.mkState "   " true) firstLoad
  = (GoogleSheetsSetup.mkState "   " true,
     Ui.toast GoogleSheetsSetup.invalidUrl firstLoad) /\
  exists a1,
    GoogleSheetsSetup.handleSubmit None
      (GoogleSheetsSetup.mkState "https://docs.google.com/spreadsheets/d/abc/edit" true)
      firstLoad
    = (GoogleSheetsSetup.mkState "https://docs.google.com/spreadsheets/d/abc/edit" false,
       a1) /\
    config (Ui.world a1) = mkConfig (Some (csvUrlFor "abc")) (Some false).
Proof.
  split.
  - apply (handleSubmit_cases None (GoogleSheetsSetup.mkState "   " true) firstLoad)
      with (e := Error "Invalid Google Sheets URL").
    vm_compute. reflexivity.
  - destruct (handleSubmit_cases None
                (GoogleSheetsSetup.mkState
                   "https://docs.google.com/spreadsheets/d/abc/edit" true) firstLoad)
      as [Hok _].
    destruct (Hok (csvUrlFor "abc")) as (a1 & Hrun & Hconfig & _).
    + vm_compute. reflexivity.
    + exists a1. split; [exact Hrun | exact Hconfig].
Defined.

(** ** The page when two records share an id *)

Section DuplicateIds.

Import Ui.

Variable JSON_parse : string -> option (list ImageData).
Variable JSON_stringify : list ImageData -> string.

Hypothesis parse_stringify_law :
  forall l, JSON_parse (JSON_stringify l) = Some l.
Hypothesis stringify_truthy_law :
  forall l, Js.truthy (JSON_stringify l) = true.

Local Abbreviation loadedSnapshot' := (loadedSnapshot JSON_parse).

(** X20. With two records of the same id the page and the cache part ways:
    the service relabels the first of them only, [Index.handleUpdateLabel]
    relabels on display every record with that id.  So a later record with
    the id shows the new label while the cache keeps its old one. *)
Theorem handleUpdateLabel_duplicate_ids (a : App) (id_ newLabel : string)
        (k j : nat) (first later : ImageData) :
  displayed a = loadedSnapshot' (world a) ->
  loadedSnapshot' (world a) !! k = Some first -> id first = id_ ->
  loadedSnapshot' (world a) !! j = Some later -> id later = id_ ->
  (k < j)%nat -> label later <> newLabel ->
  let r := Index.handleUpdateLabel JSON_parse JSON_stringify id_ newLabel a in
  fst r = Return tt /\
  displayed (snd r) !! j = Some (setLabel newLabel later) /\
  loadedSnapshot' (world (snd r)) !! j = Some later /\
  displayed (snd r) <> loadedSnapshot' (world (snd r)).
Proof.
  intros Hsync Hfirst Hidf Hlater Hidl Hlt Hlabel. cbv zeta.
  assert (Hin : id_ ∈ ids (loadedSnapshot' (world a))).
  { rewrite <- Hidf. eapply list_elem_of_lookup_2. apply ids_lookup. exact Hfirst. }
  destruct (findIndex_present _ _ Hin) as (k0 & img & Hk0 & Hl0 & Hid0 & Hbefore).
  assert (Hk0j : k0 <> j).
  { intros ->. apply (Hbefore k first Hfirst Hlt Hidf). }
  destruct (updateImageLabel_found JSON_parse JSON_stringify (world a) id_ newLabel
              k0 Hk0) as (Hr & Hs & _ & Hd).
  assert (Hloaded : loadedSnapshot' (snd (updateImageLabel JSON_parse JSON_stringify
                                           id_ newLabel (world a)))
                    = alter (setLabel newLabel) k0 (loadedSnapshot' (world a)))
    by exact (loadedSnapshot_written JSON_parse JSON_stringify parse_stringify_law
                stringify_truthy_law _ _ _ Hs).
  unfold Index.handleUpdateLabel.
  destruct (updateImageLabel JSON_parse JSON_stringify id_ newLabel (world a))
    as [[u|e] w] eqn:Hu; cbn [fst snd] in *; [|discriminate].
  set (l := loadedSnapshot' (world a)) in *.
  assert (Hshown : displayed (setWorld w a) !! j = Some later).
  { unfold displayed in *. cbn [world images setWorld].
    destruct (images a) as [|shown]; cbn [contentsOf] in *.
    - rewrite Hd. subst l. unfold loadedSnapshot in *.
      destruct (storedSnapshot JSON_parse (world a)); cbn [default] in *.
      + now rewrite Hsync.
      + now rewrite list_lookup_alter, decide_False.
    - now rewrite Hsync. }
  assert (Hdisp : displayed
                    (setImages (Fresh (map (Index.relabel id_ newLabel)
                                           (displayed (setWorld w a))))
                               (setWorld w a)) !! j
                  = Some (setLabel newLabel later)).
  { unfold displayed at 1. cbn [world images setImages contentsOf].
    change (map (Index.relabel id_ newLabel) (displayed (setWorld w a)))
      with (Index.relabel id_ newLabel <$> displayed (setWorld w a)).
    rewrite list_lookup_fmap, Hshown. cbn. unfold Index.relabel.
    now rewrite Hidl, String.eqb_refl. }
  assert (Hcache : loadedSnapshot' w !! j = Some later)
    by (rewrite Hloaded, list_lookup_alter, decide_False by exact Hk0j; exact Hlater).
  split; [reflexivity|]. split; [exact Hdisp|]. split; [exact Hcache|].
  intros Heq. cbn [world setImages setWorld] in Heq. rewrite Heq in Hdisp.
  rewrite Hcache in Hdisp. injection Hdisp as Hdisp.
  apply Hlabel. now rewrite Hdisp.
Qed.

End DuplicateIds.

(** Relabelling the id that two records got in the same millisecond. *)
Lemma handleUpdateLabel_duplicate_ids_witness :
  let r := Index.handleUpdateLabel JsonText.parse JsonText.stringify
             "1700000000000" "Both" twoAddsInOneMs in
  Ui.displayed (snd r) <> loadedSnapshot JsonText.parse (Ui.world (snd r)).
Proof.
  cbv zeta.
  apply (handleUpdateLabel_duplicate_ids JsonText.parse JsonText.stringify
           parse_stringify stringify_truthy twoAddsInOneMs "1700000000000" "Both"
           6 7 (mkImage "1700000000000" "https://x/a.jpg" "A" None)
           (mkImage "1700000000000" "https://x/b.jpg" "B" None)).
  - vm_compute. reflexivity.
  - vm_compute. reflexivity.
  - reflexivity.
  - vm_compute. reflexivity.
  - reflexivity.
  - lia.
  - discriminate.
Defined.
